(** * The MK3 / VE.Bus reader of [data_multiplus.py]

    A shallow embedding of the script that polls a Victron Multiplus-II
    through the MK3-USB interface: the frame codec ([makeMK3Command],
    [readResult]), the transaction loop ([sendMK3Command]), the start-up
    handshake ([initMK3]), the scaling function ([scalefunc]), the
    telemetry reader ([readMultiplus]) and one turn of the publishing
    loop.

    Python integers are [Z]; a [bytearray] or a list of integers is a
    [list Z]; Python floats are the binary64 numbers of [PrimFloat];
    exceptions are the constructors of [exn]; the serial port and the
    ramdisk are explicit state, threaded by the monad [M]. *)

From Stdlib Require Import ZArith List String Ascii Bool Lia Floats.
Import ListNotations.
Open Scope Z_scope.

(** ** Exceptions and outcomes *)

Inductive exn : Type :=
| ValueError                (* bytearray.fromhex, bytes(bytearray(seq)) *)
| ChecksumFailed            (* Exception("Checksum failed") *)
| IndexError
| StructError               (* struct.error *)
| NameError (name : string)
| ZeroDivisionError
| OverflowError
| TimeoutError              (* named by the specification, raised nowhere *)
| OSError                   (* a write that the ramdisk refuses *)
| Wrapped (e : exn).        (* Exception(e) *)

(** [Unfinished] is not a Python outcome: it marks a loop of the model
    that used up its bound.  [sendMK3Command_finishes] shows that the
    bound chosen in [sendMK3Command] is never used up. *)
Inductive result (A : Type) : Type :=
| Ok (a : A)
| Raise (e : exn)
| Unfinished.
Arguments Ok {A} a.
Arguments Raise {A} e.
Arguments Unfinished {A}.

(** ** Bytes *)

Definition is_byte (z : Z) : bool := (0 <=? z) && (z <? 256).

(** Python's [sum] over a list of integers. *)
Definition py_sum (l : list Z) : Z := fold_right Z.add 0 l.

(** [int.from_bytes(bs, "big")]. *)
Definition from_bytes_big (bs : list Z) : Z :=
  fold_left (fun acc b => acc * 256 + b) bs 0.

(** Indexing [data[i]] with a non-negative index. *)
Definition getitem (data : list Z) (i : nat) : result Z :=
  match nth_error data i with
  | Some b => Ok b
  | None => Raise IndexError
  end.

(** Slicing [data[a:b]] with non-negative bounds: out-of-range bounds are
    clipped, never an error. *)
Definition slice (data : list Z) (a b : nat) : list Z :=
  firstn (b - a) (skipn a data).

(** ** [bytearray.fromhex] *)

Definition hexval (c : ascii) : option Z :=
  let n := Z.of_nat (nat_of_ascii c) in
  if (48 <=? n) && (n <=? 57) then Some (n - 48)
  else if (97 <=? n) && (n <=? 102) then Some (n - 87)
  else if (65 <=? n) && (n <=? 70) then Some (n - 55)
  else None.

Definition isspace (c : ascii) : bool :=
  let n := Z.of_nat (nat_of_ascii c) in
  (n =? 32) || ((9 <=? n) && (n <=? 13)).

(** Two hexadecimal digits per byte, white space skipped between bytes,
    [ValueError] on anything else. *)
Fixpoint fromhex (s : string) : result (list Z) :=
  match s with
  | EmptyString => Ok []
  | String c s' =>
      if isspace c then fromhex s'
      else
        match hexval c, s' with
        | Some top, String d s'' =>
            match hexval d with
            | Some bot =>
                match fromhex s'' with
                | Ok bs => Ok (top * 16 + bot :: bs)
                | r => r
                end
            | None => Raise ValueError
            end
        | _, _ => Raise ValueError
        end
  end.

(** The inverse direction, used to show that every byte sequence is the
    value of some command string. *)
Definition hexdigit (n : Z) : ascii :=
  ascii_of_nat (Z.to_nat (if n <? 10 then n + 48 else n + 87)).

Fixpoint tohex (bs : list Z) : string :=
  match bs with
  | [] => EmptyString
  | b :: bs' => String (hexdigit (b / 16)) (String (hexdigit (b mod 16)) (tohex bs'))
  end.

(** ** [makeMK3Command] *)

Definition makeMK3Command (command : string) : result (list Z) :=
  match fromhex command with
  | Ok command =>
      let length := Z.of_nat (List.length command) + 1 in
      let buf := [length; 0xFF] in
      let buf := buf ++ command in
      let checksum := 256 - (py_sum buf) mod 256 in
      Ok (buf ++ [checksum])
  | Raise e => Raise e
  | Unfinished => Unfinished
  end.

(** ** The serial port and the ramdisk

    [rx] holds the bytes that reach the input buffer before the read
    timeout of one second runs out; [pending] is the script of the device:
    the bytes it sends in answer to the next writes, one entry per write;
    [tx] records what was written.  A metric line is its text up to the
    value, and the value.  [buffer] holds the lines printed to the open
    file object and not yet written to its file: [print] fills it,
    [flush] and [close] write it out.  [disk] tells for the next such
    writes whether the ramdisk takes them ([true]) or refuses them
    ([false]); once it is used up every write is taken, and a refused
    write leaves the file as it was. *)

Inductive pyval : Type :=
| PyInt (z : Z)
| PyFloat (f : float).

Definition line : Type := (string * pyval)%type.

Record world : Type := mkWorld {
  rx : list Z;
  pending : list (list Z);
  tx : list (list Z);
  fs : list (string * list line);
  stdout : list exn;
  disk : list bool;
  buffer : list line
}.

Definition set_rx (w : world) (v : list Z) : world :=
  mkWorld v (pending w) (tx w) (fs w) (stdout w) (disk w) (buffer w).

Definition set_fs (w : world) (v : list (string * list line)) : world :=
  mkWorld (rx w) (pending w) (tx w) v (stdout w) (disk w) (buffer w).

Definition set_disk (w : world) (v : list bool) : world :=
  mkWorld (rx w) (pending w) (tx w) (fs w) (stdout w) v (buffer w).

Definition set_buffer (w : world) (v : list line) : world :=
  mkWorld (rx w) (pending w) (tx w) (fs w) (stdout w) (disk w) v.

Definition M (A : Type) : Type := world -> result A * world.

Definition ret {A} (a : A) : M A := fun w => (Ok a, w).

Definition raise {A} (e : exn) : M A := fun w => (Raise e, w).

Definition bind {A B} (m : M A) (k : A -> M B) : M B :=
  fun w =>
    match m w with
    | (Ok a, w') => k a w'
    | (Raise e, w') => (Raise e, w')
    | (Unfinished, w') => (Unfinished, w')
    end.

Definition lift {A} (r : result A) : M A := fun w => (r, w).

Notation "x <- m ;; k" := (bind m (fun x => k))
  (at level 61, m at next level, right associativity).
Notation "m ;;; k" := (bind m (fun _ => k))
  (at level 61, right associativity).

(** [mk3.read(n)]: with a timeout set, the bytes that arrived, at most
    [n] of them; never an exception. *)
Definition read (n : Z) : M (list Z) :=
  fun w => (Ok (firstn (Z.to_nat n) (rx w)), set_rx w (skipn (Z.to_nat n) (rx w))).

(** [mk3.write(c)]: the sequence is converted with [bytes(bytearray(c))],
    which raises [ValueError] on an element outside [0..255]; the device
    answers with the next entry of its script. *)
Definition write (c : list Z) : M unit :=
  fun w =>
    if forallb is_byte c
    then (Ok tt, mkWorld (rx w ++ hd [] (pending w)) (tl (pending w))
                         (tx w ++ [c]) (fs w) (stdout w) (disk w) (buffer w))
    else (Raise ValueError, w).

Definition reset_input_buffer : M unit :=
  fun w => (Ok tt, set_rx w []).

(** ** [readResult] *)

Definition readResult : M (list Z) :=
  l <- read 1 ;;
  let l := from_bytes_big l in
  data <- read (l + 1) ;;
  let data := data ++ [l] in
  if negb (py_sum data mod 256 =? 0)
  then raise ChecksumFailed
  else ret data.

(** A world in which exactly the bytes [bs] arrive. *)
Definition incoming (bs : list Z) : world := mkWorld bs [] [] [] [] [] [].

(** ** [sendMK3Command] *)

(** The loop test [data[0] != 0xFF or data[1] != 0x56], with Python's
    short-circuit [or]. *)
Definition not_version_frame (data : list Z) : result bool :=
  match getitem data 0 with
  | Ok d0 =>
      if negb (d0 =? 0xFF) then Ok true
      else
        match getitem data 1 with
        | Ok d1 => Ok (negb (d1 =? 0x56))
        | Raise e => Raise e
        | Unfinished => Unfinished
        end
  | Raise e => Raise e
  | Unfinished => Unfinished
  end.

(** The [while True] loop: read a frame, leave the loop on the first one
    that is not a version broadcast. *)
Fixpoint read_until_answer (fuel : nat) : M (list Z) :=
  match fuel with
  | O => fun w => (Unfinished, w)
  | S fuel' =>
      data <- readResult ;;
      b <- lift (not_version_frame data) ;;
      if b then ret data else read_until_answer fuel'
  end.

Definition sendMK3Command (command : string) : M (list Z) :=
  c <- lift (makeMK3Command command) ;;
  write c ;;;
  (fun w => read_until_answer (S (List.length (rx w))) w).

(** ** Numbers: [int] and [float] *)

(** Conversion of an [int] to a [float]: rounded to nearest even,
    [OverflowError] when the integer is too large for a binary64. *)
Definition float_of_int (z : Z) : result float :=
  match SpecFloat.binary_normalize FloatOps.prec FloatOps.emax z 0 false with
  | SpecFloat.S754_infinity _ => Raise OverflowError
  | sf => Ok (FloatOps.SF2Prim sf)
  end.

(** [x / d] for a float [x] and an int [d]. *)
Definition truediv_float_int (x : float) (d : Z) : result float :=
  match float_of_int d with
  | Ok y => if PrimFloat.eqb y PrimFloat.zero then Raise ZeroDivisionError
            else Ok (PrimFloat.div x y)
  | Raise e => Raise e
  | Unfinished => Unfinished
  end.

(** [a * b]. *)
Definition py_mul (a b : pyval) : result pyval :=
  match a, b with
  | PyInt x, PyInt y => Ok (PyInt (x * y))
  | PyInt x, PyFloat g =>
      match float_of_int x with
      | Ok f => Ok (PyFloat (PrimFloat.mul f g))
      | Raise e => Raise e
      | Unfinished => Unfinished
      end
  | PyFloat f, PyInt y =>
      match float_of_int y with
      | Ok g => Ok (PyFloat (PrimFloat.mul f g))
      | Raise e => Raise e
      | Unfinished => Unfinished
      end
  | PyFloat f, PyFloat g => Ok (PyFloat (PrimFloat.mul f g))
  end.

(** ** [scalefunc] *)

Definition scalefunc (factor : Z) : result pyval :=
  let s := Z.abs factor in
  if 0x4000 <=? s then
    match truediv_float_int PrimFloat.one (0x8000 - s) with
    | Ok f => Ok (PyFloat f)
    | Raise e => Raise e
    | Unfinished => Unfinished
    end
  else Ok (PyInt s).

(** ** [struct.unpack], little-endian standard sizes *)

Definition le_unsigned (bs : list Z) : Z :=
  fold_right (fun b acc => b + 256 * acc) 0 bs.

Definition to_signed (bits : Z) (z : Z) : Z :=
  if z <? 2 ^ (bits - 1) then z else z - 2 ^ bits.

(** [unpack('<h B h', buf)] *)
Definition unpack_hBh (buf : list Z) : result (Z * Z * Z) :=
  match buf with
  | [b0; b1; b2; b3; b4] =>
      Ok (to_signed 16 (le_unsigned [b0; b1]), b2, to_signed 16 (le_unsigned [b3; b4]))
  | _ => Raise StructError
  end.

(** [unpack('<H h', buf)] *)
Definition unpack_Hh (buf : list Z) : result (Z * Z) :=
  match buf with
  | [b0; b1; b2; b3] =>
      Ok (le_unsigned [b0; b1], to_signed 16 (le_unsigned [b2; b3]))
  | _ => Raise StructError
  end.

(** [unpack('<B B', buf)] *)
Definition unpack_BB (buf : list Z) : result (Z * Z) :=
  match buf with
  | [b0; b1] => Ok (b0, b1)
  | _ => Raise StructError
  end.

(** [unpack('<H', buf)[0]] *)
Definition unpack_H (buf : list Z) : result Z :=
  match buf with
  | [b0; b1] => Ok (le_unsigned [b0; b1])
  | _ => Raise StructError
  end.

(** [unpack('<i', buf)[0]] *)
Definition unpack_i (buf : list Z) : result Z :=
  match buf with
  | [b0; b1; b2; b3] => Ok (to_signed 32 (le_unsigned [b0; b1; b2; b3]))
  | _ => Raise StructError
  end.

(** The raw DC current of a frame of type 0:
    [unpack('<i', data[8:11] + (bytes.fromhex('00') if data[10] < 0x80
                                else bytes.fromhex('FF')))[0]]. *)
Definition dc_current_raw (data : list Z) : result Z :=
  let low := slice data 8 11 in
  match getitem data 10 with
  | Ok d10 => unpack_i (low ++ (if d10 <? 0x80 then [0x00] else [0xFF]))
  | Raise e => Raise e
  | Unfinished => Unfinished
  end.

(** ** Names and [except] clauses

    The names the module binds (its imports, its assignment to
    [sleepTime] and [mk3], its functions) and the built-in exception
    classes the script mentions.  The serial port is taken to have been
    opened, so [mk3] is bound. *)

Inductive exn_class : Type :=
| CValueError
| CException.

Inductive pyobj : Type :=
| ExcClass (c : exn_class)
| OtherObject.

Definition module_globals : list (string * pyobj) :=
  map (fun n => (n, OtherObject))
      ["time"; "sys"; "os"; "io"; "struct"; "unpack"; "serial"; "sleepTime";
       "mk3"; "readResult"; "makeMK3Command"; "sendMK3Command"; "scalefunc";
       "initMK3"; "readMultiplus"]%string.

Definition builtins : list (string * pyobj) :=
  [("ValueError", ExcClass CValueError); ("Exception", ExcClass CException)]%string.

Fixpoint assoc {A} (k : string) (l : list (string * A)) : option A :=
  match l with
  | [] => None
  | (k', v) :: l' => if String.eqb k k' then Some v else assoc k l'
  end.

(** Loading a global name: the module's names, then the built-ins, else
    [NameError]. *)
Definition load_name (name : string) : result pyobj :=
  match assoc name (module_globals ++ builtins) with
  | Some o => Ok o
  | None => Raise (NameError name)
  end.

(** The tuple of an [except (n1, n2, ...)] clause, evaluated left to
    right when an exception reaches the clause. *)
Fixpoint load_names (names : list string) : result (list pyobj) :=
  match names with
  | [] => Ok []
  | n :: names' =>
      match load_name n with
      | Ok o =>
          match load_names names' with
          | Ok os => Ok (o :: os)
          | r => r
          end
      | Raise e => Raise e
      | Unfinished => Unfinished
      end
  end.

(** [isinstance(e, c)]: every exception of the model derives from
    [Exception]; [ValueError] is the only instance of its class. *)
Definition isinstance (e : exn) (o : pyobj) : bool :=
  match o, e with
  | ExcClass CException, _ => true
  | ExcClass CValueError, ValueError => true
  | _, _ => false
  end.

(** ** [initMK3] *)

(** One turn of the [for] loop: [true] stands for [break]. *)
Definition initMK3_attempt : M bool :=
  fun w =>
    match sendMK3Command "41 01 00" w with
    | (Ok _, w') => (Ok true, w')
    | (Raise e, w') =>
        match load_names ["ValueError"; "struct_error"]%string with
        | Ok classes =>
            if existsb (isinstance e) classes then (Ok false, w') else (Raise e, w')
        | Raise e' => (Raise e', w')
        | Unfinished => (Unfinished, w')
        end
    | (Unfinished, w') => (Unfinished, w')
    end.

(** [for i in range(0, n): body], where the body may [break]. *)
Fixpoint for_range (n : nat) (body : M bool) : M unit :=
  match n with
  | O => ret tt
  | S n' => b <- body ;; if b then ret tt else for_range n' body
  end.

(** [time.sleep] changes nothing the model records. *)
Definition sleep : M unit := ret tt.

Definition initMK3 : M unit :=
  c <- lift (makeMK3Command "56") ;;
  write c ;;;
  sleep ;;;
  reset_input_buffer ;;;
  for_range 3 initMK3_attempt.

(** ** The files of the ramdisk *)

Definition fs_remove (path : string) (files : list (string * list line))
  : list (string * list line) :=
  filter (fun kv => negb (String.eqb path (fst kv))) files.

Definition fs_put (path : string) (content : list line)
  (files : list (string * list line)) : list (string * list line) :=
  (path, content) :: fs_remove path files.

(** [open(path, mode='w')]: the file is created or emptied; the new file
    object has nothing buffered. *)
Definition open_w (path : string) : M string :=
  fun w => (Ok path, set_buffer (set_fs w (fs_put path [] (fs w))) []).

(** [print(dataStr, file=fileObj)]: the line goes to the buffer of the
    file object; nothing is written to the file yet. *)
Definition print_to (fileObj : string) (l : line) : M unit :=
  fun w => (Ok tt, set_buffer w (buffer w ++ [l])).

(** The buffered lines go to the end of the file. *)
Definition write_buffer (fileObj : string) (w : world) : world :=
  let old := match assoc fileObj (fs w) with Some c => c | None => [] end in
  set_buffer (set_fs w (fs_put fileObj (old ++ buffer w) (fs w))) [].

(** [fileObj.flush()]: with nothing buffered nothing is written; else the
    buffer is written out, unless the ramdisk refuses the write: then
    [OSError] is raised and the lines stay buffered. *)
Definition flush (fileObj : string) : M unit :=
  fun w =>
    match buffer w with
    | [] => (Ok tt, w)
    | _ :: _ =>
        match disk w with
        | false :: d => (Raise OSError, set_disk w d)
        | true :: d => (Ok tt, set_disk (write_buffer fileObj w) d)
        | [] => (Ok tt, write_buffer fileObj w)
        end
    end.

(** [fileObj.close()]: the buffer is flushed and the file is closed; when
    the flush raises the file is closed all the same, the buffered lines
    are lost and the exception goes on. *)
Definition close (fileObj : string) : M unit :=
  fun w =>
    match flush fileObj w with
    | (Raise e, w') => (Raise e, set_buffer w' [])
    | r => r
    end.

(** [os.system('/bin/mv src dst')]: no exception whatever [mv] does. *)
Definition mv (src dst : string) : M unit :=
  fun w =>
    match assoc src (fs w) with
    | Some c => (Ok tt, set_fs w (fs_put dst c (fs_remove src (fs w))))
    | None => (Ok tt, w)
    end.

(** The text of a metric line up to its value:
    [MULTIPLUS_INV{mode=<quote>name<quote>} ]. *)
Definition quote : string := String (ascii_of_nat 34) EmptyString.

Definition metric (name : string) : string :=
  ("MULTIPLUS_INV{mode=" ++ quote ++ name ++ quote ++ "} ")%string.

(** ** [readMultiplus] *)

(** [try: body except Exception as e: raise Exception(e)] *)
Definition reraise_wrapped {A} (body : M A) : M A :=
  fun w =>
    match body w with
    | (Raise e, w') => (Raise (Wrapped e), w')
    | r => r
    end.

(** One ['W'] transaction and its [unpack('<h B h', data[3:8])]. *)
Definition read_scale_offset (command : string) : M (Z * Z) :=
  reset_input_buffer ;;;
  data <- sendMK3Command command ;;
  t <- lift (unpack_hBh (slice data 3 8)) ;;
  let '(scale, ignore, offset) := t in
  ret (scale, offset).

(** [(raw + offset) * scalefunc(scale)] *)
Definition calibrate (raw offset scale : Z) : result pyval :=
  match scalefunc scale with
  | Ok k => py_mul (PyInt (raw + offset)) k
  | Raise e => Raise e
  | Unfinished => Unfinished
  end.

Definition readMultiplus (fileObj : string) : M unit :=
  reraise_wrapped (
    so <- read_scale_offset "57 36 02 00" ;;
    let '(scale, offset) := so in
    reset_input_buffer ;;;
    data <- sendMK3Command "46 01" ;;
    ui <- lift (unpack_Hh (slice data 10 14)) ;;
    let '(uinv, iinv) := ui in
    bi <- lift (unpack_BB (slice data 1 3)) ;;
    let '(bf, invf) := bi in
    v <- lift (calibrate uinv offset scale) ;;
    AC_voltage <- lift (py_mul v (PyInt bf)) ;;
    so <- read_scale_offset "57 36 03 00" ;;
    let '(scale, offset) := so in
    v <- lift (calibrate iinv offset scale) ;;
    AC_current <- lift (py_mul v (PyInt invf)) ;;
    reset_input_buffer ;;;
    data <- sendMK3Command "46 00" ;;
    DC_voltage <- lift (unpack_H (slice data 6 8)) ;;
    DC_current <- lift (dc_current_raw data) ;;
    so <- read_scale_offset "57 36 04 00" ;;
    let '(scale, offset) := so in
    DC_voltage <- lift (calibrate DC_voltage offset scale) ;;
    so <- read_scale_offset "57 36 05 00" ;;
    let '(scale, offset) := so in
    DC_current <- lift (calibrate DC_current offset scale) ;;
    print_to fileObj (metric "batVolts", DC_voltage) ;;;
    print_to fileObj (metric "batAmps", DC_current) ;;;
    power <- lift (py_mul DC_voltage DC_current) ;;
    print_to fileObj (metric "outputW", power)).

(** ** One turn of the publishing loop *)

Definition tmp_path : string := "/ramdisk/VICTRON_MULTIPLUS.prom.tmp".
Definition prom_path : string := "/ramdisk/VICTRON_MULTIPLUS.prom".

(** [print(e)] on the standard output. *)
Definition print_exn (e : exn) : M unit :=
  fun w =>
    (Ok tt, mkWorld (rx w) (pending w) (tx w) (fs w) (stdout w ++ [e]) (disk w)
              (buffer w)).

(** The [try] block of the loop. *)
Definition cycle_try (file_object : string) : M unit :=
  readMultiplus file_object ;;;
  flush file_object ;;;
  close file_object ;;;
  mv tmp_path prom_path.

(** The body of [while True], the final [time.sleep(sleepTime)] included. *)
Definition cycle : M unit :=
  file_object <- open_w tmp_path ;;
  (fun w =>
     match cycle_try file_object w with
     | (Raise e, w') => (print_exn e ;;; close file_object) w'
     | r => r
     end) ;;;
  sleep.

(** [n] turns of the loop. *)
Fixpoint cycles (n : nat) : M unit :=
  match n with
  | O => ret tt
  | S n' => cycle ;;; cycles n'
  end.

(** The published metrics file. *)
Definition published (w : world) : option (list line) := assoc prom_path (fs w).

(** ** Notions used by the statements *)

(** The checksum as the specification words it. *)
Definition spec_checksum (header_and_payload : list Z) : Z :=
  (256 - (py_sum header_and_payload) mod 256) mod 256.

(** The length byte [readResult] meets in [w], and the bytes its second
    read returns. *)
Definition frame_len (w : world) : Z := from_bytes_big (firstn 1 (rx w)).

Definition frame_rest (w : world) : list Z :=
  firstn (Z.to_nat (frame_len w + 1)) (skipn 1 (rx w)).

(** A frame with its byte of index [i] replaced by [b]. *)
Definition corrupt (i : nat) (b : Z) (frame : list Z) : list Z :=
  firstn i frame ++ b :: skipn (S i) frame.

(** A frame as it travels: a length byte [l], then [l + 1] bytes, all of
    them summing up to a multiple of 256. *)
Definition valid_frame (f : list Z) : bool :=
  match f with
  | [] => false
  | l :: rest =>
      (0 <=? l) && (Z.of_nat (List.length rest) =? l + 1)
      && ((l + py_sum rest) mod 256 =? 0)
  end.

(** The frame is a version broadcast: after the length byte come [0xFF]
    and [0x56]. *)
Definition broadcast (f : list Z) : bool :=
  (nth 1 f 0 =? 0xFF) && (nth 2 f 0 =? 0x56).

(** What [readResult] returns for the frame [f]: the bytes after the
    length byte, then the length. *)
Definition frame_data (f : list Z) : list Z := tl f ++ [hd 0 f].

(** The frames of the two commands of the handshake. *)
Definition version_command : list Z := [2; 255; 86; 169].
Definition address_command : list Z := [4; 255; 65; 1; 0; 187].

(** Three metric lines, the third one the product of the first two. *)
Definition complete_sample (ls : list line) : Prop :=
  exists volts amps watts,
    ls = [(metric "batVolts", volts); (metric "batAmps", amps);
          (metric "outputW", watts)]
    /\ py_mul volts amps = Ok watts.

(** The digit written for the nibble [n] reads back as [n] and is no
    white space. *)
Definition nibble_ok (n : Z) : bool :=
  match hexval (hexdigit n) with
  | Some m => (m =? n) && negb (isspace (hexdigit n))
  | None => false
  end.

(** [1.0 / d] has a value. *)
Definition reciprocal_defined (d : Z) : bool :=
  match truediv_float_int PrimFloat.one d with
  | Ok _ => true
  | _ => false
  end.

(** The result of a float operation as a Python value. *)
Definition float_result (r : result float) : result pyval :=
  match r with
  | Ok f => Ok (PyFloat f)
  | Raise e => Raise e
  | Unfinished => Unfinished
  end.

(** The world of the failed handshake: nothing in answer to the version
    command, a frame with a wrong checksum in answer to the first address
    command, correct answers ready for two more. *)
Definition failed_handshake : world :=
  mkWorld [] [[]; [1; 0; 0]; [1; 65; 190]; [1; 65; 190]] [] [] [] [] [].

(** The files and the standard output of a world; a step that leaves
    them alone; a step that leaves the published file and the standard
    output alone. *)
Definition files (w : world) : list (string * list line) * list exn :=
  (fs w, stdout w).

Definition keeps_files {A} (m : M A) : Prop :=
  forall w, files (snd (m w)) = files w.

Definition keeps_published {A} (m : M A) : Prop :=
  forall w, published (snd (m w)) = published w /\ stdout (snd (m w)) = stdout w.

(** A step that comes to an end in every world. *)
Definition finishes {A} (m : M A) : Prop :=
  forall w, fst (m w) <> Unfinished.

(** A frame as the device sends it: the length, the body, the byte that
    closes the sum. *)
Definition answer (body : list Z) : list Z :=
  let l := Z.of_nat (List.length body) in
  [l] ++ body ++ [spec_checksum (l :: body)].

(** The answer to a ['W'] command: scale and offset at [data[3:8]]. *)
Definition answer_W (scale offset : Z) : list Z :=
  answer [255; 87; 142; scale mod 256; scale / 256; 0; offset mod 256; offset / 256].

(** A device that answers the six transactions of [readMultiplus], two
    version broadcasts ahead of the DC frame; [dc_i_scale] is the scale it
    reports for the DC current.  The raw DC voltage is 100, its scale
    [0x0010] and its offset 5. *)
Definition sample_device (dc_i_scale : Z) : list (list Z) :=
  [answer_W 1 0;
   answer [32; 1; 1; 3; 4; 8; 0; 0; 0; 0; 230; 0; 10; 0; 0];
   answer_W 1 0;
   answer [255; 86; 1; 2; 3; 4] ++ answer [255; 86; 1; 2; 3; 4]
     ++ answer [32; 1; 2; 3; 4; 12; 100; 0; 16; 0; 128; 0; 0; 0];
   answer_W 16 5;
   answer_W dc_i_scale 0].

Definition old_sample : list line := [(metric "batVolts", PyInt 0)].

Definition sample_world (dc_i_scale : Z) (d : list bool) : world :=
  mkWorld [] (sample_device dc_i_scale) [] [(prom_path, old_sample)] [] d [].

(** ** Notions used by the further properties *)

(** The frames of the six transactions of [readMultiplus], in the order
    of the source. *)
Definition telemetry_commands : list (list Z) :=
  [[5; 255; 87; 54; 2; 0; 109]; [3; 255; 70; 1; 183];
   [5; 255; 87; 54; 3; 0; 108]; [3; 255; 70; 0; 184];
   [5; 255; 87; 54; 4; 0; 107]; [5; 255; 87; 54; 5; 0; 106]].

(** A step that writes to the port, in order, the commands [cmds] or,
    when it does not return, some first part of them. *)
Definition sends {A} (cmds : list (list Z)) (m : M A) : Prop :=
  forall w, exists p q,
    cmds = p ++ q
    /\ tx (snd (m w)) = tx w ++ p
    /\ (forall a, fst (m w) = Ok a -> q = []).

(** What a transaction leaves alone: the files, the standard output,
    the answers of the ramdisk and the buffer of the open file. *)
Definition store (w : world)
  : list (string * list line) * list exn * list bool * list line :=
  (fs w, stdout w, disk w, buffer w).

Definition keeps_store {A} (m : M A) : Prop :=
  forall w, store (snd (m w)) = store w.




(** * Properties *)

(** ** Sums and hexadecimal text *)

Lemma py_sum_app (a b : list Z) : py_sum (a ++ b) = py_sum a + py_sum b.
Proof.
  induction a as [|x a IH]; simpl; [reflexivity|].
  rewrite IH. lia.
Qed.

Lemma hexdigit_table :
  forallb (fun k => nibble_ok (Z.of_nat k)) (seq 0 16) = true.
Proof. reflexivity. Qed.

Lemma hexval_hexdigit (n : Z) :
  0 <= n < 16 -> hexval (hexdigit n) = Some n /\ isspace (hexdigit n) = false.
Proof.
  intros H. pose proof hexdigit_table as T.
  rewrite forallb_forall in T. specialize (T (Z.to_nat n)).
  rewrite Z2Nat.id in T by lia.
  assert (Hin : In (Z.to_nat n) (seq 0 16)) by (apply in_seq; lia).
  specialize (T Hin). unfold nibble_ok in T.
  destruct (hexval (hexdigit n)) as [m|]; [|discriminate].
  apply andb_true_iff in T. destruct T as [Hm Hs].
  apply Z.eqb_eq in Hm. apply negb_true_iff in Hs.
  subst m. split; [reflexivity | exact Hs].
Qed.

(** Every sequence of bytes is the value of a command string. *)
Lemma fromhex_tohex (bs : list Z) :
  forallb is_byte bs = true -> fromhex (tohex bs) = Ok bs.
Proof.
  induction bs as [|b bs IH]; simpl; intros H; [reflexivity|].
  apply andb_true_iff in H. destruct H as [Hb Hbs].
  unfold is_byte in Hb. apply andb_true_iff in Hb. destruct Hb as [H0 H1].
  apply Z.leb_le in H0. apply Z.ltb_lt in H1.
  assert (Hhi : 0 <= b / 16 < 16).
  { split; [apply Z.div_pos; lia | apply Z.div_lt_upper_bound; lia]. }
  assert (Hlo : 0 <= b mod 16 < 16) by (apply Z.mod_pos_bound; lia).
  destruct (hexval_hexdigit _ Hhi) as [Ehi Shi].
  destruct (hexval_hexdigit _ Hlo) as [Elo _].
  rewrite Shi, Ehi, Elo, (IH Hbs).
  f_equal. f_equal. pose proof (Z.div_mod b 16 ltac:(lia)). lia.
Qed.

(** ** The frame codec *)

Lemma makeMK3Command_shape (command : string) (P : list Z) :
  fromhex command = Ok P ->
  let buf := [Z.of_nat (List.length P) + 1; 255] ++ P in
  makeMK3Command command = Ok (buf ++ [256 - py_sum buf mod 256])
  /\ 1 <= 256 - py_sum buf mod 256 <= 256
  /\ (py_sum buf mod 256 <> 0 -> 256 - py_sum buf mod 256 = spec_checksum buf)
  /\ (py_sum buf mod 256 = 0 -> spec_checksum buf = 0).
Proof.
  intros H buf. unfold makeMK3Command. rewrite H. fold buf.
  pose proof (Z.mod_pos_bound (py_sum buf) 256 ltac:(lia)) as B.
  unfold spec_checksum.
  repeat split; try lia.
  - intros Hn. symmetry. apply Z.mod_small. lia.
  - intros Hz. rewrite Hz. reflexivity.
Qed.

(** The byte appended by [makeMK3Command] brings the sum to a multiple
    of 256. *)
Lemma checksum_closes (s : Z) : (s + (256 - s mod 256)) mod 256 = 0.
Proof.
  replace (s + (256 - s mod 256)) with (s - s mod 256 + 1 * 256) by lia.
  rewrite Z.mod_add by lia.
  apply Zmod_divides; [lia|].
  exists (s / 256). pose proof (Z.div_mod s 256 ltac:(lia)). lia.
Qed.

Lemma readResult_unfold (w : world) :
  readResult w =
  if (frame_len w + py_sum (frame_rest w)) mod 256 =? 0
  then (Ok (frame_rest w ++ [frame_len w]),
        set_rx w (skipn (Z.to_nat (frame_len w + 1)) (skipn 1 (rx w))))
  else (Raise ChecksumFailed,
        set_rx w (skipn (Z.to_nat (frame_len w + 1)) (skipn 1 (rx w)))).
Proof.
  unfold readResult, bind, read, raise, ret, frame_rest, frame_len, set_rx.
  cbn [rx pending tx fs stdout fst snd].
  change (Z.to_nat 1) with 1%nat.
  set (l := from_bytes_big (firstn 1 (rx w))).
  set (rest := firstn (Z.to_nat (l + 1)) (skipn 1 (rx w))).
  rewrite py_sum_app. cbn [py_sum fold_right].
  replace (py_sum rest + (l + 0)) with (l + py_sum rest) by lia.
  destruct ((l + py_sum rest) mod 256 =? 0); reflexivity.
Qed.

Lemma readResult_cons (w : world) (l : Z) (more : list Z) :
  rx w = l :: more ->
  readResult w =
  if (l + py_sum (firstn (Z.to_nat (l + 1)) more)) mod 256 =? 0
  then (Ok (firstn (Z.to_nat (l + 1)) more ++ [l]),
        set_rx w (skipn (Z.to_nat (l + 1)) more))
  else (Raise ChecksumFailed, set_rx w (skipn (Z.to_nat (l + 1)) more)).
Proof.
  intros Hrx. rewrite readResult_unfold.
  unfold frame_rest, frame_len. rewrite Hrx. cbn [firstn skipn].
  replace (from_bytes_big [l]) with l by (unfold from_bytes_big; cbn; lia).
  reflexivity.
Qed.

(** On a silent line both reads come back empty and the checksum test
    passes: the result is the single appended length, 0. *)
Lemma readResult_nil (w : world) :
  rx w = [] -> readResult w = (Ok [0], set_rx w []).
Proof.
  intros Hrx. rewrite readResult_unfold.
  unfold frame_rest. unfold frame_len. rewrite Hrx. reflexivity.
Qed.

(** What [readResult] makes of a complete frame [l :: rest] followed by
    [more]. *)
Lemma readResult_frame (w : world) (l : Z) (rest more : list Z) :
  rx w = l :: rest ++ more ->
  Z.of_nat (List.length rest) = l + 1 ->
  readResult w =
  if (l + py_sum rest) mod 256 =? 0
  then (Ok (rest ++ [l]), set_rx w more)
  else (Raise ChecksumFailed, set_rx w more).
Proof.
  intros Hrx Hlen. rewrite (readResult_cons w l (rest ++ more) Hrx).
  replace (Z.to_nat (l + 1)) with (List.length rest) by lia.
  rewrite firstn_app, Nat.sub_diag, firstn_all, skipn_app, Nat.sub_diag, skipn_all.
  cbn [firstn skipn app]. rewrite app_nil_r. reflexivity.
Qed.

(** C1, as amended: when the frame [makeMK3Command] produced is a
    sequence of bytes, decoding it succeeds and returns the [0xFF] marker,
    the payload, the checksum and, appended last, the length [len(P) + 1];
    the checksum is verified and kept, and what follows the frame stays in
    the buffer. *)
Theorem readResult_makeMK3Command_roundtrip
  (command : string) (P c more : list Z) :
  fromhex command = Ok P ->
  makeMK3Command command = Ok c ->
  forallb is_byte c = true ->
  readResult (incoming (c ++ more)) =
  (Ok ([255] ++ P ++
       [256 - (py_sum ([Z.of_nat (List.length P) + 1; 255] ++ P)) mod 256;
        Z.of_nat (List.length P) + 1]),
   incoming more).
Proof.
  intros HP Hc _.
  destruct (makeMK3Command_shape command P HP) as [E _].
  rewrite E in Hc. injection Hc as <-.
  set (L := Z.of_nat (List.length P) + 1).
  set (cs := 256 - py_sum ([L; 255] ++ P) mod 256).
  rewrite (readResult_frame _ L (255 :: P ++ [cs]) more).
  - replace (L + py_sum (255 :: P ++ [cs])) with (py_sum ([L; 255] ++ P) + cs).
    + unfold cs. rewrite checksum_closes. simpl. rewrite <- app_assoc. reflexivity.
    + cbn [py_sum fold_right app]. fold (py_sum P). fold (py_sum (P ++ [cs])).
      rewrite py_sum_app. cbn [py_sum fold_right]. lia.
  - cbn [rx incoming app]. rewrite <- !app_assoc. reflexivity.
  - simpl. rewrite length_app. simpl. unfold L. lia.
Qed.

Lemma readResult_makeMK3Command_roundtrip_witness :
  readResult (incoming ([5; 255; 87; 54; 2; 0; 109] ++ [3; 255])) =
  (Ok [255; 87; 54; 2; 0; 109; 5], incoming [3; 255]).
Proof.
  exact (readResult_makeMK3Command_roundtrip "57 36 02 00" [87; 54; 2; 0]
           [5; 255; 87; 54; 2; 0; 109] [3; 255] eq_refl eq_refl eq_refl).
Defined.

(** C1, as stated, fails: for the payload [56] the decoder returns four
    bytes, the payload between the marker and the checksum, not the
    payload alone. *)
Lemma readResult_returns_more_than_payload :
  fromhex "56" = Ok [86]
  /\ makeMK3Command "56" = Ok [2; 255; 86; 169]
  /\ fst (readResult (incoming [2; 255; 86; 169])) = Ok [255; 86; 169; 2]
  /\ ~ (forall command P c,
          fromhex command = Ok P -> makeMK3Command command = Ok c ->
          fst (readResult (incoming c)) = Ok P).
Proof.
  repeat split; try reflexivity.
  intros H.
  specialize (H "56"%string [86] [2; 255; 86; 169] eq_refl eq_refl).
  discriminate H.
Qed.

(** C2: [makeMK3Command] appends [256 - sum mod 256] without the final
    reduction modulo 256.  For the payload [FF] the header-and-payload sum
    is 512, the appended value is 256, which is no byte, where the stated
    checksum is 0; the port refuses the frame. *)
Theorem makeMK3Command_checksum_256 :
  makeMK3Command "FF" = Ok ([2; 255] ++ [255] ++ [256])
  /\ py_sum ([2; 255] ++ [255]) mod 256 = 0
  /\ spec_checksum ([2; 255] ++ [255]) = 0
  /\ is_byte 256 = false
  /\ fst (write [2; 255; 255; 256] (incoming [])) = Raise ValueError.
Proof. repeat split; reflexivity. Qed.

(** ** Corrupted frames *)

Lemma corrupt_cons (i : nat) (b x : Z) (l : list Z) :
  corrupt (S i) b (x :: l) = x :: corrupt i b l.
Proof. reflexivity. Qed.

Lemma length_corrupt (i : nat) (b : Z) (l : list Z) :
  (i < List.length l)%nat -> List.length (corrupt i b l) = List.length l.
Proof.
  revert i. induction l as [|x l IH]; intros i H; simpl in H; [lia|].
  destruct i as [|i]; [reflexivity|].
  rewrite corrupt_cons. simpl. rewrite IH; lia.
Qed.

Lemma py_sum_corrupt (i : nat) (b : Z) (l : list Z) :
  (i < List.length l)%nat -> py_sum (corrupt i b l) = py_sum l - nth i l 0 + b.
Proof.
  revert i. induction l as [|x l IH]; intros i H; simpl in H; [lia|].
  destruct i as [|i].
  - unfold corrupt. simpl. lia.
  - rewrite corrupt_cons. simpl. rewrite IH by lia. lia.
Qed.

Lemma nth_is_byte (i : nat) (l : list Z) :
  forallb is_byte l = true -> (i < List.length l)%nat -> 0 <= nth i l 0 < 256.
Proof.
  intros H Hi.
  assert (Hb : is_byte (nth i l 0) = true).
  { rewrite forallb_forall in H. apply H. apply nth_In. exact Hi. }
  unfold is_byte in Hb. apply andb_true_iff in Hb. destruct Hb as [H0 H1].
  apply Z.leb_le in H0. apply Z.ltb_lt in H1. lia.
Qed.

Lemma mod_shift_nonzero (s d : Z) :
  s mod 256 = 0 -> -256 < d < 256 -> d <> 0 -> (s + d) mod 256 <> 0.
Proof.
  intros Hs Hd Hn Hsd.
  apply Zmod_divides in Hs; [|lia]. apply Zmod_divides in Hsd; [|lia].
  destruct Hs as [k1 E1]. destruct Hsd as [k2 E2]. lia.
Qed.

(** An encoded command is a length byte and a body of [length + 1]
    elements whose sum, with the length, is a multiple of 256. *)
Lemma makeMK3Command_frame (command : string) (c : list Z) :
  makeMK3Command command = Ok c ->
  exists L body,
    c = L :: body
    /\ Z.of_nat (List.length body) = L + 1
    /\ (L + py_sum body) mod 256 = 0.
Proof.
  unfold makeMK3Command.
  destruct (fromhex command) as [P| |]; try discriminate.
  intros Hc. injection Hc as <-.
  set (L := Z.of_nat (List.length P) + 1).
  set (cs := 256 - py_sum ([L; 255] ++ P) mod 256).
  exists L, (255 :: P ++ [cs]). split; [reflexivity|]. split.
  - cbn [List.length]. rewrite length_app. cbn [List.length]. lia.
  - replace (L + py_sum (255 :: P ++ [cs])) with (py_sum ([L; 255] ++ P) + cs).
    + unfold cs. apply checksum_closes.
    + cbn [py_sum fold_right app]. fold (py_sum P). fold (py_sum (P ++ [cs])).
      rewrite py_sum_app. cbn [py_sum fold_right]. lia.
Qed.

(** C3, as amended: [readResult] fails with the checksum error exactly
    when [(l + sum(rest)) mod 256 <> 0]; hence in an encoded frame of
    bytes the corruption of one byte after the length byte makes the
    decoding fail, whatever follows the frame in the buffer, and so does
    the corruption of the length byte to a larger value when nothing
    follows the frame.  (A length byte made smaller makes [readResult] sum
    a prefix of the frame only; one made larger makes it sum bytes that
    follow the frame.) *)
Theorem readResult_checksum_detects
  (w : world) (command : string) (c more : list Z) (i : nat) (b : Z) :
  makeMK3Command command = Ok c ->
  forallb is_byte c = true ->
  (i < List.length c)%nat ->
  is_byte b = true ->
  nth i c 0 <> b ->
  (i = 0%nat -> nth 0 c 0 < b /\ more = []) ->
  (fst (readResult w) = Raise ChecksumFailed <->
   (frame_len w + py_sum (frame_rest w)) mod 256 <> 0)
  /\ fst (readResult (incoming (corrupt i b c ++ more))) = Raise ChecksumFailed.
Proof.
  intros Hc Hbytes Hi Hb Hneq Hlen. split.
  - rewrite readResult_unfold.
    destruct ((frame_len w + py_sum (frame_rest w)) mod 256 =? 0) eqn:E; simpl.
    + apply Z.eqb_eq in E. split; [discriminate | intros H; contradiction].
    + apply Z.eqb_neq in E. split; [intros _; exact E | reflexivity].
  - pose proof (nth_is_byte i c Hbytes Hi) as Bold.
    assert (Bb : 0 <= b < 256).
    { unfold is_byte in Hb. apply andb_true_iff in Hb. destruct Hb as [H0 H1].
      apply Z.leb_le in H0. apply Z.ltb_lt in H1. lia. }
    destruct (makeMK3Command_frame command c Hc) as (L & body & -> & Hbody & Hsum).
    destruct i as [|i].
    + destruct (Hlen eq_refl) as [Hlt ->]. rewrite app_nil_r.
      change (nth 0 (L :: body) 0) with L in *.
      change (corrupt 0 b (L :: body)) with (b :: body).
      rewrite (readResult_cons (incoming (b :: body)) b body eq_refl).
      rewrite firstn_all2 by lia.
      destruct ((b + py_sum body) mod 256 =? 0) eqn:E; [|reflexivity].
      apply Z.eqb_eq in E. exfalso.
      apply (mod_shift_nonzero (L + py_sum body) (b - L) Hsum ltac:(lia) ltac:(lia)).
      replace (L + py_sum body + (b - L)) with (b + py_sum body) by lia. exact E.
    + rewrite corrupt_cons.
      change (nth (S i) (L :: body) 0) with (nth i body 0) in *.
      cbn [List.length] in Hi.
      rewrite (readResult_frame _ L (corrupt i b body) more).
      * rewrite py_sum_corrupt by lia.
        destruct ((L + (py_sum body - nth i body 0 + b)) mod 256 =? 0) eqn:E;
          [|reflexivity].
        apply Z.eqb_eq in E. exfalso.
        apply (mod_shift_nonzero (L + py_sum body) (b - nth i body 0) Hsum
                 ltac:(lia) ltac:(lia)).
        replace (L + py_sum body + (b - nth i body 0))
          with (L + (py_sum body - nth i body 0 + b)) by lia. exact E.
      * reflexivity.
      * rewrite length_corrupt by lia. exact Hbody.
Qed.

Lemma readResult_checksum_detects_witness :
  ((fst (readResult (incoming [1; 0; 0])) = Raise ChecksumFailed <->
    (frame_len (incoming [1; 0; 0]) + py_sum (frame_rest (incoming [1; 0; 0]))) mod 256 <> 0)
   /\ fst (readResult (incoming (corrupt 3 7 [3; 255; 0; 1; 253] ++ [255; 9])))
      = Raise ChecksumFailed)
  /\ fst (readResult (incoming (corrupt 0 4 [3; 255; 0; 1; 253] ++ [])))
     = Raise ChecksumFailed.
Proof.
  split.
  - apply (readResult_checksum_detects (incoming [1; 0; 0]) "00 01"
             [3; 255; 0; 1; 253] [255; 9] 3 7).
    + reflexivity.
    + reflexivity.
    + simpl. lia.
    + reflexivity.
    + simpl. lia.
    + intros H. discriminate H.
  - apply (readResult_checksum_detects (incoming [1; 0; 0]) "00 01"
             [3; 255; 0; 1; 253] [] 0 4).
    + reflexivity.
    + reflexivity.
    + simpl. lia.
    + reflexivity.
    + simpl. lia.
    + intros _. split; [simpl; lia | reflexivity].
Defined.

(** A length byte made larger is not detected when the bytes that follow
    the frame happen to close the sum: with 3 turned into 4 and one
    [0xFF] behind the frame, five bytes are read and accepted. *)
Example readResult_accepts_lengthened_frame :
  fst (readResult (incoming (corrupt 0 4 [3; 255; 0; 1; 253] ++ [255])))
  = Ok [255; 0; 1; 253; 255; 4].
Proof. reflexivity. Qed.

(** C3, as stated, fails.  The frame of the payload [00 01] is
    [3, 255, 0, 1, 253]; with its length byte turned into 1 the sum of the
    frame changes, yet [readResult] reads two bytes only, finds
    [1 + 255 + 0] a multiple of 256 and returns. *)
Lemma readResult_accepts_shortened_frame :
  makeMK3Command "00 01" = Ok [3; 255; 0; 1; 253]
  /\ corrupt 0 1 [3; 255; 0; 1; 253] = [1; 255; 0; 1; 253]
  /\ py_sum [1; 255; 0; 1; 253] mod 256 <> py_sum [3; 255; 0; 1; 253] mod 256
  /\ fst (readResult (incoming [1; 255; 0; 1; 253])) = Ok [255; 0; 1]
  /\ ~ (forall command c i b,
          makeMK3Command command = Ok c ->
          (i < List.length c)%nat ->
          is_byte b = true ->
          py_sum (corrupt i b c) mod 256 <> py_sum c mod 256 ->
          fst (readResult (incoming (corrupt i b c))) = Raise ChecksumFailed).
Proof.
  repeat split; try reflexivity.
  - discriminate.
  - intros H.
    specialize (H "00 01"%string [3; 255; 0; 1; 253] 0%nat 1 eq_refl).
    assert (E : fst (readResult (incoming (corrupt 0 1 [3; 255; 0; 1; 253])))
                = Raise ChecksumFailed).
    { apply H; [simpl; lia | reflexivity | discriminate]. }
    discriminate E.
Qed.

(** ** The transaction loop *)

Lemma not_version_frame_data (f : list Z) :
  valid_frame f = true ->
  not_version_frame (frame_data f) = Ok (negb (broadcast f)).
Proof.
  destruct f as [|l rest]; [discriminate|].
  unfold valid_frame. intros H.
  apply andb_true_iff in H. destruct H as [H _].
  apply andb_true_iff in H. destruct H as [H0 Hlen].
  apply Z.leb_le in H0. apply Z.eqb_eq in Hlen.
  unfold frame_data, broadcast, not_version_frame, getitem.
  cbn [tl hd nth].
  destruct rest as [|r0 rest]; [cbn [List.length] in Hlen; lia|].
  cbn [app nth_error nth].
  destruct (r0 =? 255); [|reflexivity].
  cbn [negb andb].
  destruct rest as [|r1 rest].
  - cbn [List.length] in Hlen. assert (l = 0) by lia. subst l. reflexivity.
  - reflexivity.
Qed.

Lemma readResult_valid_frame (w : world) (f more : list Z) :
  valid_frame f = true ->
  rx w = f ++ more ->
  readResult w = (Ok (frame_data f), set_rx w more).
Proof.
  destruct f as [|l rest]; [discriminate|].
  unfold valid_frame. intros H Hrx.
  apply andb_true_iff in H. destruct H as [H Hsum].
  apply andb_true_iff in H. destruct H as [_ Hlen].
  apply Z.eqb_eq in Hlen.
  rewrite (readResult_frame w l rest more Hrx Hlen), Hsum. reflexivity.
Qed.

Lemma set_rx_set_rx (w : world) (a b : list Z) :
  set_rx (set_rx w a) b = set_rx w b.
Proof. reflexivity. Qed.

Lemma read_until_answer_skips (bs : list (list Z)) :
  forall (fuel : nat) (w : world) (f tail : list Z),
    forallb (fun b => valid_frame b && broadcast b) bs = true ->
    valid_frame f = true ->
    broadcast f = false ->
    rx w = List.concat bs ++ f ++ tail ->
    (List.length bs < fuel)%nat ->
    read_until_answer fuel w = (Ok (frame_data f), set_rx w tail).
Proof.
  induction bs as [|b bs IH]; intros fuel w f tail Hbs Hf Hnb Hrx Hfuel;
    (destruct fuel as [|fuel]; [cbn [List.length] in Hfuel; lia|]);
    cbn [read_until_answer]; unfold bind, lift, ret.
  - cbn [List.concat app] in Hrx.
    rewrite (readResult_valid_frame w f tail Hf Hrx).
    rewrite (not_version_frame_data f Hf), Hnb. reflexivity.
  - cbn [forallb] in Hbs. apply andb_true_iff in Hbs. destruct Hbs as [Hb Hbs].
    apply andb_true_iff in Hb. destruct Hb as [Hv Hbc].
    cbn [List.concat] in Hrx. rewrite <- app_assoc in Hrx.
    rewrite (readResult_valid_frame w b _ Hv Hrx).
    rewrite (not_version_frame_data b Hv), Hbc. cbn [negb].
    rewrite (IH fuel (set_rx w (List.concat bs ++ f ++ tail)) f tail Hbs Hf Hnb).
    + reflexivity.
    + reflexivity.
    + cbn [List.length] in Hfuel. lia.
Qed.

Lemma length_concat_frames (bs : list (list Z)) :
  forallb (fun b => valid_frame b && broadcast b) bs = true ->
  (List.length bs <= List.length (List.concat bs))%nat.
Proof.
  induction bs as [|b bs IH]; intros H; [cbn; lia|].
  cbn [forallb] in H. apply andb_true_iff in H. destruct H as [Hb Hbs].
  apply andb_true_iff in Hb. destruct Hb as [Hv _].
  cbn [List.concat List.length]. rewrite length_app.
  destruct b as [|l rest]; [discriminate|].
  specialize (IH Hbs). cbn [List.length]. lia.
Qed.

(** C6: with [N] version broadcasts and then another frame arriving,
    [sendMK3Command] drops the broadcasts and returns the data of the first
    frame that is none; what follows that frame stays in the buffer. *)
Theorem sendMK3Command_discards_broadcasts
  (command : string) (c : list Z) (w : world)
  (bs : list (list Z)) (f tail : list Z) :
  makeMK3Command command = Ok c ->
  forallb is_byte c = true ->
  forallb (fun b => valid_frame b && broadcast b) bs = true ->
  valid_frame f = true ->
  broadcast f = false ->
  rx w ++ hd [] (pending w) = List.concat bs ++ f ++ tail ->
  sendMK3Command command w =
  (Ok (frame_data f),
   mkWorld tail (tl (pending w)) (tx w ++ [c]) (fs w) (stdout w) (disk w) (buffer w)).
Proof.
  intros Hc Hbytes Hbs Hf Hnb Hrx.
  unfold sendMK3Command, bind, lift, write. rewrite Hc, Hbytes.
  rewrite (read_until_answer_skips bs _ _ f tail Hbs Hf Hnb).
  - reflexivity.
  - exact Hrx.
  - cbn [rx]. rewrite Hrx, length_app.
    pose proof (length_concat_frames bs Hbs). lia.
Qed.

Lemma sendMK3Command_discards_broadcasts_witness :
  sendMK3Command "46 00"
    (mkWorld [] [[3; 255; 86; 1; 167] ++ [3; 255; 86; 1; 167] ++ [2; 32; 7; 215] ++ [9]]
       [] [] [] [] []) =
  (Ok [32; 7; 215; 2], mkWorld [9] [] [[3; 255; 70; 0; 184]] [] [] [] []).
Proof.
  exact (sendMK3Command_discards_broadcasts "46 00" [3; 255; 70; 0; 184]
           (mkWorld [] [[3; 255; 86; 1; 167] ++ [3; 255; 86; 1; 167]
                          ++ [2; 32; 7; 215] ++ [9]] [] [] [] [] [])
           [[3; 255; 86; 1; 167]; [3; 255; 86; 1; 167]] [2; 32; 7; 215] [9]
           eq_refl eq_refl eq_refl eq_refl eq_refl eq_refl).
Defined.

(** The loops of the model finish. *)

Lemma fromhex_finishes_bounded (n : nat) :
  forall s, (String.length s <= n)%nat -> fromhex s <> Unfinished.
Proof.
  induction n as [|n IH]; intros s Hs.
  - destruct s; [discriminate | cbn in Hs; lia].
  - destruct s as [|c s]; [discriminate|].
    cbn [String.length] in Hs. cbn [fromhex].
    destruct (isspace c); [apply IH; lia|].
    destruct (hexval c); [|discriminate].
    destruct s as [|d s]; [discriminate|].
    destruct (hexval d); [|discriminate].
    cbn [String.length] in Hs.
    specialize (IH s ltac:(lia)).
    destruct (fromhex s); [discriminate | discriminate | contradiction].
Qed.

Lemma makeMK3Command_finishes (command : string) :
  makeMK3Command command <> Unfinished.
Proof.
  unfold makeMK3Command.
  pose proof (fromhex_finishes_bounded _ command (Nat.le_refl _)) as H.
  destruct (fromhex command); [discriminate | discriminate | contradiction].
Qed.

Lemma read_until_answer_finishes (fuel : nat) :
  forall w, (List.length (rx w) < fuel)%nat ->
            fst (read_until_answer fuel w) <> Unfinished.
Proof.
  induction fuel as [|fuel IH]; intros w Hw; [lia|].
  cbn [read_until_answer]. unfold bind, lift, ret.
  destruct (rx w) as [|l more] eqn:Hrx.
  - rewrite (readResult_nil w Hrx). cbn. discriminate.
  - rewrite (readResult_cons w l more Hrx).
    destruct ((l + py_sum (firstn (Z.to_nat (l + 1)) more)) mod 256 =? 0);
      [|cbn; discriminate].
    destruct (not_version_frame _) as [[|]| |] eqn:E; try (cbn; discriminate).
    + apply IH. cbn [rx set_rx]. rewrite length_skipn.
      cbn [List.length] in Hw. lia.
    + exfalso. revert E. unfold not_version_frame, getitem.
      destruct (nth_error _ 0); [|discriminate].
      destruct (negb _); [discriminate|].
      destruct (nth_error _ 1); discriminate.
Qed.

(** [sendMK3Command] always comes to an end: with an answer or with an
    exception. *)
Lemma sendMK3Command_finishes (command : string) (w : world) :
  fst (sendMK3Command command w) <> Unfinished.
Proof.
  unfold sendMK3Command, bind, lift, write.
  pose proof (makeMK3Command_finishes command) as H.
  destruct (makeMK3Command command) as [c| |]; [|cbn; discriminate|contradiction].
  destruct (forallb is_byte c); [|cbn; discriminate].
  apply read_until_answer_finishes. lia.
Qed.

(** ** What the transaction functions leave untouched *)

Lemma readResult_world (w : world) :
  snd (readResult w) =
  set_rx w (skipn (Z.to_nat (frame_len w + 1)) (skipn 1 (rx w))).
Proof.
  rewrite readResult_unfold.
  destruct (_ =? 0); reflexivity.
Qed.

Lemma set_rx_same (w : world) : set_rx w (rx w) = w.
Proof. destruct w; reflexivity. Qed.

Lemma read_until_answer_world (fuel : nat) :
  forall w, exists X, snd (read_until_answer fuel w) = set_rx w X.
Proof.
  induction fuel as [|fuel IH]; intros w.
  - exists (rx w). cbn. symmetry. apply set_rx_same.
  - cbn [read_until_answer]. unfold bind, lift, ret.
    pose proof (readResult_world w) as Hw.
    destruct (readResult w) as [[data| |] w1]; cbn [snd] in Hw; subst w1;
      try (eexists; reflexivity).
    destruct (not_version_frame data) as [[|]| |]; try (eexists; reflexivity).
    destruct (IH (set_rx w (skipn (Z.to_nat (frame_len w + 1)) (skipn 1 (rx w)))))
      as [X HX].
    exists X. rewrite HX. reflexivity.
Qed.

Lemma sendMK3Command_world (command : string) (c : list Z) (w : world) :
  makeMK3Command command = Ok c ->
  forallb is_byte c = true ->
  exists X, snd (sendMK3Command command w) =
            mkWorld X (tl (pending w)) (tx w ++ [c]) (fs w) (stdout w) (disk w) (buffer w).
Proof.
  intros Hc Hb. unfold sendMK3Command, bind, lift, write. rewrite Hc, Hb.
  match goal with
  | |- context [read_until_answer ?n ?w1] =>
      destruct (read_until_answer_world n w1) as [X HX]
  end.
  exists X. rewrite HX. reflexivity.
Qed.

Lemma sendMK3Command_files (command : string) (w : world) :
  fs (snd (sendMK3Command command w)) = fs w
  /\ stdout (snd (sendMK3Command command w)) = stdout w.
Proof.
  unfold sendMK3Command, bind, lift, write.
  destruct (makeMK3Command command) as [c| |]; try (split; reflexivity).
  destruct (forallb is_byte c); try (split; reflexivity).
  match goal with
  | |- context [read_until_answer ?n ?w1] =>
      destruct (read_until_answer_world n w1) as [X HX]
  end.
  rewrite HX. split; reflexivity.
Qed.

(** ** The handshake *)

Lemma initMK3_attempt_outcome (w : world) :
  initMK3_attempt w =
  match sendMK3Command "41 01 00" w with
  | (Ok _, w') => (Ok true, w')
  | (Raise _, w') => (Raise (NameError "struct_error"), w')
  | (Unfinished, w') => (Unfinished, w')
  end.
Proof.
  unfold initMK3_attempt.
  destruct (sendMK3Command "41 01 00" w) as [[d|e|] w']; reflexivity.
Qed.

(** C4: the handshake does not retry.  The [except] clause names
    [struct_error], which the module never binds: an exception raised by
    the first attempt (here the checksum failure) ends in a [NameError]
    that leaves [initMK3]; the [for] loop over [range(0, 3)] amounts to one
    attempt, and the address command is written once, whatever the device
    answers. *)
Theorem initMK3_never_retries :
  (forall w,
     for_range 3 initMK3_attempt w =
     match sendMK3Command "41 01 00" w with
     | (Ok _, w') => (Ok tt, w')
     | (Raise _, w') => (Raise (NameError "struct_error"), w')
     | (Unfinished, w') => (Unfinished, w')
     end)
  /\ (forall w, tx (snd (initMK3 w)) = tx w ++ [version_command; address_command])
  /\ load_name "struct_error" = Raise (NameError "struct_error")
  /\ initMK3 failed_handshake =
     (Raise (NameError "struct_error"),
      mkWorld [] [[1; 65; 190]; [1; 65; 190]] [version_command; address_command]
        [] [] [] []).
Proof.
  assert (Hloop : forall w,
     for_range 3 initMK3_attempt w =
     match sendMK3Command "41 01 00" w with
     | (Ok _, w') => (Ok tt, w')
     | (Raise _, w') => (Raise (NameError "struct_error"), w')
     | (Unfinished, w') => (Unfinished, w')
     end).
  { intros w. cbn [for_range]. unfold bind. rewrite initMK3_attempt_outcome.
    destruct (sendMK3Command "41 01 00" w) as [[d|e|] w']; reflexivity. }
  split; [exact Hloop|]. split; [|split; reflexivity].
  intros w. unfold initMK3, bind, lift, sleep, ret, reset_input_buffer.
  change (makeMK3Command "56") with (Ok version_command).
  unfold write. change (forallb is_byte version_command) with true. cbv iota.
  rewrite Hloop.
  match goal with
  | |- context [sendMK3Command "41 01 00" ?w1] =>
      destruct (sendMK3Command_world "41 01 00" address_command w1 eq_refl eq_refl)
        as [X HX];
      destruct (sendMK3Command "41 01 00" w1) as [[d|e|] w2]
  end; cbn [snd] in *; subst w2; cbn [tx set_rx];
    rewrite <- app_assoc; reflexivity.
Qed.

(** ** Reads that come back short *)

(** C5, as amended: no read of [readResult] raises; when fewer bytes
    arrive than were asked for, [readResult] goes on with the bytes it got:
    it fails on the checksum alone and otherwise returns a result built
    from the short data. *)
Theorem readResult_short_read (w : world) :
  Z.of_nat (List.length (rx w)) < 1 + (frame_len w + 1) ->
  fst (readResult w) <> Raise TimeoutError
  /\ fst (readResult w) =
     if (frame_len w + py_sum (skipn 1 (rx w))) mod 256 =? 0
     then Ok (skipn 1 (rx w) ++ [frame_len w])
     else Raise ChecksumFailed.
Proof.
  intros Hshort.
  assert (E : frame_rest w = skipn 1 (rx w)).
  { unfold frame_rest. apply firstn_all2.
    rewrite length_skipn. lia. }
  rewrite readResult_unfold, E.
  destruct (_ =? 0); cbn [fst]; split; try reflexivity; discriminate.
Qed.

Lemma readResult_short_read_witness :
  fst (readResult (incoming [1; 255])) <> Raise TimeoutError
  /\ fst (readResult (incoming [1; 255])) = Ok [255; 1].
Proof.
  apply (readResult_short_read (incoming [1; 255])).
  vm_compute. reflexivity.
Defined.

(** C5, as stated, fails: on a silent line [readResult] returns [[0]], and
    with one byte of the two asked for it returns that byte and the
    length. *)
Lemma readResult_returns_on_timeout :
  fst (readResult (incoming [])) = Ok [0]
  /\ fst (readResult (incoming [1; 255])) = Ok [255; 1]
  /\ ~ (forall w,
          Z.of_nat (List.length (rx w)) < 1 + (frame_len w + 1) ->
          fst (readResult w) = Raise TimeoutError).
Proof.
  repeat split; try reflexivity.
  intros H. specialize (H (incoming []) eq_refl). discriminate H.
Qed.

(** ** The scaling function *)

(** C7: [scalefunc] returns [1.0 / (0x8000 - abs(factor))] from
    [abs(factor) >= 0x4000] on and [abs(factor)] below; it maps [0x3FFF] to
    itself and [0x4001] to [1.0 / (0x8000 - 0x4001)], and it does not see
    the sign of its argument. *)
Theorem scalefunc_branches (factor : Z) :
  (0x4000 <= Z.abs factor ->
   scalefunc factor =
   float_result (truediv_float_int PrimFloat.one (0x8000 - Z.abs factor)))
  /\ (Z.abs factor < 0x4000 -> scalefunc factor = Ok (PyInt (Z.abs factor)))
  /\ scalefunc 0x3FFF = Ok (PyInt 0x3FFF)
  /\ scalefunc 0x4001 =
     float_result (truediv_float_int PrimFloat.one (0x8000 - 0x4001))
  /\ scalefunc 0x4001 = Ok (PyFloat (PrimFloat.div 1 16383))
  /\ scalefunc (- factor) = scalefunc factor.
Proof.
  repeat split.
  - intros H. unfold scalefunc, float_result.
    destruct (Z.leb_spec 16384 (Z.abs factor)); [reflexivity | lia].
  - intros H. unfold scalefunc.
    destruct (Z.leb_spec 16384 (Z.abs factor)); [lia | reflexivity].
  - unfold scalefunc. rewrite Z.abs_opp. reflexivity.
Qed.

Lemma scalefunc_branches_witness :
  scalefunc (-20000) =
  float_result (truediv_float_int PrimFloat.one (0x8000 - Z.abs (-20000)))
  /\ scalefunc 100 = Ok (PyInt (Z.abs 100)).
Proof.
  split.
  - apply (proj1 (scalefunc_branches (-20000))). vm_compute. discriminate.
  - apply (proj1 (proj2 (scalefunc_branches 100))). reflexivity.
Defined.

Lemma reciprocal_defined_range :
  forallb (fun n => reciprocal_defined (Z.of_nat n)) (seq 1 (Z.to_nat 16384)) = true.
Proof. vm_compute. reflexivity. Qed.

Lemma reciprocal_defined_small (d : Z) :
  1 <= d <= 16384 -> exists f, truediv_float_int PrimFloat.one d = Ok f.
Proof.
  intros H.
  pose proof reciprocal_defined_range as R.
  rewrite forallb_forall in R.
  specialize (R (Z.to_nat d)).
  rewrite Z2Nat.id in R by lia.
  assert (Hin : In (Z.to_nat d) (seq 1 (Z.to_nat 16384))) by (apply in_seq; lia).
  specialize (R Hin). unfold reciprocal_defined in R.
  destruct (truediv_float_int PrimFloat.one d) as [f| |]; try discriminate.
  exists f. reflexivity.
Qed.

(** C10: on the 16-bit factors [scalefunc] has a value everywhere but at
    [-32768], where [0x8000 - s] is zero and the division raises
    [ZeroDivisionError]. *)
Theorem scalefunc_defined_but_at_minimum (factor : Z) :
  -32768 <= factor <= 32767 ->
  (Z.abs factor <> 0x8000 -> exists v, scalefunc factor = Ok v)
  /\ (factor = -32768 -> scalefunc factor = Raise ZeroDivisionError)
  /\ scalefunc (-32768) = Raise ZeroDivisionError.
Proof.
  intros Hrange. split; [|split].
  - intros Hne. unfold scalefunc.
    destruct (Z.leb_spec 16384 (Z.abs factor)) as [Hbig|Hsmall].
    + destruct (reciprocal_defined_small (32768 - Z.abs factor)) as [f Hf]; [lia|].
      rewrite Hf. exists (PyFloat f). reflexivity.
    + exists (PyInt (Z.abs factor)). reflexivity.
  - intros ->. reflexivity.
  - reflexivity.
Qed.

Lemma scalefunc_defined_but_at_minimum_witness :
  (exists v, scalefunc (-32767) = Ok v)
  /\ scalefunc (-32768) = Raise ZeroDivisionError.
Proof.
  split.
  - apply (proj1 (scalefunc_defined_but_at_minimum (-32767) ltac:(lia))).
    vm_compute. discriminate.
  - apply (proj1 (proj2 (scalefunc_defined_but_at_minimum (-32768) ltac:(lia)))).
    reflexivity.
Defined.

(** ** The raw DC current *)

Lemma byte_testbit7 (b : Z) :
  0 <= b < 256 -> Z.testbit b 7 = negb (b <? 128).
Proof.
  intros H.
  destruct (Z.ltb_spec b 128) as [Hlt|Hge]; cbn [negb].
  - apply Z.bits_above_log2; [lia|].
    destruct (Z.eq_dec b 0) as [->|Hnz]; [cbn; lia|].
    apply Z.log2_lt_pow2; lia.
  - apply Z.testbit_true; [lia|].
    replace (b / 2 ^ 7) with 1; [reflexivity|].
    apply Z.div_unique with (r := b - 128); lia.
Qed.

Lemma is_byte_bounds (b : Z) : is_byte b = true -> 0 <= b < 256.
Proof.
  unfold is_byte. intros H. apply andb_true_iff in H. destruct H as [H0 H1].
  apply Z.leb_le in H0. apply Z.ltb_lt in H1. lia.
Qed.

(** C8: the three bytes at [data[8:11]] are read as a little-endian
    24-bit two's-complement number, widened to 32 bits with a fourth byte
    of [0xFF] when bit 7 of the third byte is set and of [0x00] otherwise;
    the value is negative exactly when that bit is set. *)
Theorem dc_current_raw_sign_extends (pre post : list Z) (b0 b1 b2 : Z) :
  List.length pre = 8%nat ->
  is_byte b0 = true -> is_byte b1 = true -> is_byte b2 = true ->
  exists v,
    dc_current_raw (pre ++ [b0; b1; b2] ++ post) = Ok v
    /\ v = to_signed 32
             (le_unsigned [b0; b1; b2; if Z.testbit b2 7 then 255 else 0])
    /\ v = to_signed 24 (le_unsigned [b0; b1; b2])
    /\ (v < 0 <-> Z.testbit b2 7 = true)
    /\ dc_current_raw (pre ++ [0; 0; 128]) = Ok (-8388608)
    /\ dc_current_raw (pre ++ [0; 0; 127]) = Ok 8323072.
Proof.
  intros Hpre H0 H1 H2.
  apply is_byte_bounds in H0, H1, H2.
  do 8 (destruct pre as [|? pre]; [discriminate Hpre|]).
  destruct pre; [|discriminate Hpre].
  pose proof (byte_testbit7 b2 H2) as Hbit.
  assert (Hneg : dc_current_raw ([z; z0; z1; z2; z3; z4; z5; z6] ++ [0; 0; 128])
                 = Ok (-8388608)) by reflexivity.
  assert (Hpos : dc_current_raw ([z; z0; z1; z2; z3; z4; z5; z6] ++ [0; 0; 127])
                 = Ok 8323072) by reflexivity.
  unfold dc_current_raw, slice, getitem.
  cbn [app skipn firstn Nat.sub nth_error].
  rewrite Hbit.
  destruct (Z.ltb_spec b2 128) as [Hlt|Hge]; cbn [negb app unpack_i];
    (eexists; split; [reflexivity|]);
    unfold to_signed, le_unsigned; cbn [fold_right];
    change (2 ^ (32 - 1)) with 2147483648; change (2 ^ 32) with 4294967296;
    change (2 ^ (24 - 1)) with 8388608; change (2 ^ 24) with 16777216.
  - destruct (Z.ltb_spec (b0 + 256 * (b1 + 256 * (b2 + 256 * (0 + 256 * 0)))) 2147483648);
      [|lia].
    destruct (Z.ltb_spec (b0 + 256 * (b1 + 256 * (b2 + 256 * 0))) 8388608); [|lia].
    repeat split; try assumption; try lia; try discriminate.
  - destruct (Z.ltb_spec (b0 + 256 * (b1 + 256 * (b2 + 256 * (255 + 256 * 0)))) 2147483648);
      [lia|].
    destruct (Z.ltb_spec (b0 + 256 * (b1 + 256 * (b2 + 256 * 0))) 8388608); [lia|].
    repeat split; try assumption; try lia.
Qed.

Lemma dc_current_raw_sign_extends_witness :
  exists v,
    dc_current_raw ([32; 1; 2; 3; 4; 12; 100; 0] ++ [16; 0; 128] ++ [0; 7]) = Ok v
    /\ v < 0.
Proof.
  destruct (dc_current_raw_sign_extends [32; 1; 2; 3; 4; 12; 100; 0] [0; 7]
              16 0 128 eq_refl eq_refl eq_refl eq_refl)
    as (v & Hv & _ & _ & Hsign & _).
  exists v. split; [exact Hv|]. apply Hsign. reflexivity.
Defined.

(** ** The files of the ramdisk *)


Lemma assoc_fs_remove_other (p q : string) (F : list (string * list line)) :
  String.eqb q p = false -> assoc q (fs_remove p F) = assoc q F.
Proof.
  intros Hne. induction F as [|[k v] F IH]; [reflexivity|].
  unfold fs_remove in *. cbn [filter fst].
  destruct (String.eqb p k) eqn:E; cbn [negb assoc].
  - apply String.eqb_eq in E. subst k. rewrite Hne. exact IH.
  - destruct (String.eqb q k); [reflexivity | exact IH].
Qed.

Lemma assoc_fs_put_same (p : string) (c : list line) (F : list (string * list line)) :
  assoc p (fs_put p c F) = Some c.
Proof. unfold fs_put. cbn [assoc]. rewrite String.eqb_refl. reflexivity. Qed.

Lemma assoc_fs_put_other (p q : string) (c : list line) (F : list (string * list line)) :
  String.eqb q p = false -> assoc q (fs_put p c F) = assoc q F.
Proof.
  intros Hne. unfold fs_put. cbn [assoc]. rewrite Hne.
  apply assoc_fs_remove_other. exact Hne.
Qed.

(** ** Steps that leave the files alone *)

Lemma keeps_files_run {A} (m : M A) (w w' : world) (r : result A) :
  keeps_files m -> m w = (r, w') -> files w' = files w.
Proof. intros K E. specialize (K w). rewrite E in K. exact K. Qed.

Lemma keeps_files_bind {A B} (m : M A) (k : A -> M B) :
  keeps_files m -> (forall a, keeps_files (k a)) -> keeps_files (bind m k).
Proof.
  intros Km Kk w. unfold bind.
  pose proof (Km w) as E.
  destruct (m w) as [[a|e|] w1]; cbn [snd] in *; try exact E.
  rewrite (Kk a w1). exact E.
Qed.

Lemma keeps_files_lift {A} (r : result A) : keeps_files (lift r).
Proof. intros w. reflexivity. Qed.

Lemma keeps_files_ret {A} (a : A) : keeps_files (ret a).
Proof. intros w. reflexivity. Qed.

Lemma keeps_files_reset : keeps_files reset_input_buffer.
Proof. intros w. reflexivity. Qed.

Lemma keeps_files_sendMK3Command (command : string) :
  keeps_files (sendMK3Command command).
Proof.
  intros w. unfold files.
  destruct (sendMK3Command_files command w) as [-> ->]. reflexivity.
Qed.

Lemma keeps_files_read_scale_offset (command : string) :
  keeps_files (read_scale_offset command).
Proof.
  unfold read_scale_offset.
  apply keeps_files_bind; [apply keeps_files_reset | intros _].
  apply keeps_files_bind; [apply keeps_files_sendMK3Command | intros data].
  apply keeps_files_bind; [apply keeps_files_lift | intros [[scale ignore] offset]].
  apply keeps_files_ret.
Qed.

(** ** Steps that leave the published file alone *)

Lemma keeps_files_published {A} (m : M A) : keeps_files m -> keeps_published m.
Proof.
  intros K w. specialize (K w). unfold files in K. injection K as Hfs Hout.
  unfold published. rewrite Hfs, Hout. split; reflexivity.
Qed.

Lemma keeps_published_bind {A B} (m : M A) (k : A -> M B) :
  keeps_published m -> (forall a, keeps_published (k a)) ->
  keeps_published (bind m k).
Proof.
  intros Km Kk w. unfold bind.
  pose proof (Km w) as E.
  destruct (m w) as [[a|e|] w1]; cbn [snd] in *; try exact E.
  destruct (Kk a w1) as [-> ->]. exact E.
Qed.

Lemma keeps_files_print (f : string) (l : line) : keeps_files (print_to f l).
Proof. intros w. reflexivity. Qed.

Lemma keeps_published_print (l : line) : keeps_published (print_to tmp_path l).
Proof. apply keeps_files_published, keeps_files_print. Qed.

(** [flush] and [close] write to the file of the file object only. *)
Lemma keeps_published_flush : keeps_published (flush tmp_path).
Proof.
  intros w. unfold flush, write_buffer, published.
  destruct (buffer w) as [|l ls]; [split; reflexivity|].
  destruct (disk w) as [|[|] d]; cbn [snd fs set_fs set_disk set_buffer stdout];
    split; try reflexivity; apply assoc_fs_put_other; reflexivity.
Qed.

Lemma keeps_published_close : keeps_published (close tmp_path).
Proof.
  intros w. unfold close. pose proof (keeps_published_flush w) as K.
  destruct (flush tmp_path w) as [[[]|e|] w1]; exact K.
Qed.

Lemma keeps_published_reraise {A} (m : M A) :
  keeps_published m -> keeps_published (reraise_wrapped m).
Proof.
  intros K w. unfold reraise_wrapped. specialize (K w).
  destruct (m w) as [[a|e|] w1]; exact K.
Qed.

Ltac keep_step :=
  first
    [ apply keeps_published_print
    | apply keeps_files_published;
      first [ apply keeps_files_read_scale_offset
            | apply keeps_files_reset
            | apply keeps_files_sendMK3Command
            | apply keeps_files_lift
            | apply keeps_files_ret ] ].

Lemma keeps_published_readMultiplus : keeps_published (readMultiplus tmp_path).
Proof.
  unfold readMultiplus. apply keeps_published_reraise.
  repeat (apply keeps_published_bind;
          [keep_step | intros ?;
             repeat match goal with
               | p : (_ * _)%type |- _ => destruct p
               end]).
  keep_step.
Qed.

(** ** Steps that leave the buffer and the ramdisk alone *)

Lemma keeps_store_run {A} (m : M A) (w w' : world) (r : result A) :
  keeps_store m -> m w = (r, w') -> store w' = store w.
Proof. intros K E. specialize (K w). rewrite E in K. exact K. Qed.

Lemma keeps_store_bind {A B} (m : M A) (k : A -> M B) :
  keeps_store m -> (forall a, keeps_store (k a)) -> keeps_store (bind m k).
Proof.
  intros Km Kk w. unfold bind.
  pose proof (Km w) as E.
  destruct (m w) as [[a|e|] w1]; cbn [snd] in *; try exact E.
  rewrite (Kk a w1). exact E.
Qed.

Lemma keeps_store_lift {A} (r : result A) : keeps_store (lift r).
Proof. intros w. reflexivity. Qed.

Lemma keeps_store_ret {A} (a : A) : keeps_store (ret a).
Proof. intros w. reflexivity. Qed.

Lemma keeps_store_reset : keeps_store reset_input_buffer.
Proof. intros w. reflexivity. Qed.

Lemma keeps_store_sendMK3Command (command : string) :
  keeps_store (sendMK3Command command).
Proof.
  intros w. unfold sendMK3Command, bind, lift, write.
  destruct (makeMK3Command command) as [c| |]; try reflexivity.
  destruct (forallb is_byte c); try reflexivity.
  match goal with
  | |- context [read_until_answer ?n ?w1] =>
      destruct (read_until_answer_world n w1) as [X HX]
  end.
  rewrite HX. reflexivity.
Qed.

Lemma keeps_store_read_scale_offset (command : string) :
  keeps_store (read_scale_offset command).
Proof.
  unfold read_scale_offset.
  apply keeps_store_bind; [apply keeps_store_reset | intros _].
  apply keeps_store_bind; [apply keeps_store_sendMK3Command | intros data].
  apply keeps_store_bind; [apply keeps_store_lift | intros [[scale ignore] offset]].
  apply keeps_store_ret.
Qed.

(** ** A turn that succeeds *)

Lemma bind_Ok {A B} (m : M A) (k : A -> M B) (w w' : world) (b : B) :
  bind m k w = (Ok b, w') ->
  exists a w1, m w = (Ok a, w1) /\ k a w1 = (Ok b, w').
Proof.
  unfold bind. destruct (m w) as [[a|e|] w1]; try discriminate.
  intros H. exists a, w1. split; [reflexivity | exact H].
Qed.

Lemma lift_Ok {A} (r : result A) (w w' : world) (a : A) :
  lift r w = (Ok a, w') -> r = Ok a /\ w' = w.
Proof. unfold lift. intros H. injection H as -> ->. split; reflexivity. Qed.

Lemma print_to_Ok (f : string) (l : line) (w w' : world) (u : unit) :
  print_to f l w = (Ok u, w') ->
  store w' = (fs w, stdout w, disk w, buffer w ++ [l]).
Proof. unfold print_to. intros H. injection H as _ <-. reflexivity. Qed.

(** When [readMultiplus] returns, three more lines are buffered, and
    they are a complete sample; nothing was written to a file. *)
Lemma readMultiplus_Ok (f : string) (w w' : world) :
  readMultiplus f w = (Ok tt, w') ->
  exists ls,
    complete_sample ls
    /\ store w' = (fs w, stdout w, disk w, buffer w ++ ls).
Proof.
  unfold readMultiplus, reraise_wrapped.
  match goal with
  | |- match ?b with _ => _ end = _ -> _ =>
      destruct b as [[[]|e|] w1] eqn:E; try discriminate
  end.
  intros H. injection H as <-. revert E.
  repeat (let H := fresh "H" in
          let a := fresh "a" in
          let u := fresh "u" in
          intros H; apply bind_Ok in H; destruct H as (a & u & H & E);
          revert E;
          repeat match goal with
            | p : (_ * _)%type |- _ => destruct p
            end).
  intros Hlast.
  repeat match goal with
    | H : lift _ _ = (Ok _, _) |- _ =>
        apply lift_Ok in H; destruct H as [H ?]; subst
    | H : read_scale_offset ?c ?w0 = (_, ?w1) |- _ =>
        apply (keeps_store_run _ _ _ _ (keeps_store_read_scale_offset c)) in H
    | H : reset_input_buffer ?w0 = (_, ?w1) |- _ =>
        apply (keeps_store_run _ _ _ _ keeps_store_reset) in H
    | H : sendMK3Command ?c ?w0 = (_, ?w1) |- _ =>
        apply (keeps_store_run _ _ _ _ (keeps_store_sendMK3Command c)) in H
    | H : print_to _ _ _ = (Ok _, _) |- _ => apply print_to_Ok in H
    end.
  assert (Hst : store u15 = store w) by congruence.
  unfold store in *.
  injection Hst as Hfs Hout Hdisk Hbuf.
  injection H17 as F17 O17 D17 B17.
  injection H18 as F18 O18 D18 B18.
  injection Hlast as F19 O19 D19 B19.
  exists [(metric "batVolts", a9); (metric "batAmps", a10); (metric "outputW", a13)].
  split.
  - exists a9, a10, a13. split; [reflexivity | exact H19].
  - rewrite F19, F18, F17, Hfs, O19, O18, O17, Hout, D19, D18, D17, Hdisk.
    rewrite B19, B18, B17, Hbuf, <- !app_assoc. reflexivity.
Qed.

(** ** One turn of the loop, and many *)

Lemma keeps_published_cycle_try_prefix :
  keeps_published (readMultiplus tmp_path ;;; flush tmp_path ;;; close tmp_path).
Proof.
  apply keeps_published_bind; [apply keeps_published_readMultiplus | intros _].
  apply keeps_published_bind; [apply keeps_published_flush | intros _].
  apply keeps_published_close.
Qed.

(** With nothing buffered, [close] writes nothing and does not raise. *)
Lemma close_empty (f : string) (w : world) :
  buffer w = [] -> close f w = (Ok tt, w).
Proof. intros H. unfold close, flush. rewrite H. reflexivity. Qed.

(** The [try] block either publishes a complete sample or, when it
    raises, leaves the published file and the standard output alone. *)
Lemma cycle_try_run (w : world) :
  match cycle_try tmp_path (snd (open_w tmp_path w)) with
  | (Ok _, w') => exists ls, complete_sample ls /\ published w' = Some ls
  | (_, w') => published w' = published w /\ stdout w' = stdout w
  end.
Proof.
  assert (Hopen : published (snd (open_w tmp_path w)) = published w
                  /\ stdout (snd (open_w tmp_path w)) = stdout w).
  { unfold open_w, published. cbn [snd fs set_fs set_buffer stdout].
    split; [apply assoc_fs_put_other|]; reflexivity. }
  assert (Htmp : assoc tmp_path (fs (snd (open_w tmp_path w))) = Some []).
  { unfold open_w. cbn [snd fs set_fs set_buffer]. apply assoc_fs_put_same. }
  assert (Hbuf : buffer (snd (open_w tmp_path w)) = []) by reflexivity.
  set (w0 := snd (open_w tmp_path w)) in *.
  unfold cycle_try.
  pose proof (keeps_published_readMultiplus w0) as K1.
  unfold bind at 1.
  destruct (readMultiplus tmp_path w0) as [[[]|e|] w1] eqn:E1; cbn [snd] in K1;
    [|destruct K1 as [-> ->]; exact Hopen|destruct K1 as [-> ->]; exact Hopen].
  destruct (readMultiplus_Ok _ _ _ E1) as (ls & Hls & Hst).
  rewrite Hbuf in Hst. cbn [app] in Hst. unfold store in Hst.
  injection Hst as Hfs Hout Hdisk Hb.
  assert (Hne : ls <> []).
  { destruct Hls as (v & i & p & -> & _). discriminate. }
  assert (Hkeep : published w1 = published w /\ stdout w1 = stdout w).
  { destruct K1 as [-> ->]. exact Hopen. }
  unfold bind at 1. unfold flush.
  rewrite Hb. destruct ls as [|l0 ls0]; [contradiction|].
  assert (Hwritten : forall w2,
            fs w2 = fs (write_buffer tmp_path w1) -> buffer w2 = [] ->
            exists ls', complete_sample ls'
                        /\ published
                             (snd ((close tmp_path ;;; mv tmp_path prom_path) w2))
                           = Some ls'
                        /\ fst ((close tmp_path ;;; mv tmp_path prom_path) w2)
                           = Ok tt).
  { intros w2 Hfs2 Hb2. exists (l0 :: ls0). split; [exact Hls|].
    unfold bind. rewrite (close_empty tmp_path w2 Hb2).
    assert (Hin : assoc tmp_path (fs w2) = Some (l0 :: ls0)).
    { rewrite Hfs2. unfold write_buffer. cbn [fs set_fs set_buffer].
      rewrite assoc_fs_put_same, Hfs, assoc_fs_put_same, Hb. reflexivity. }
    unfold mv. rewrite Hin. cbn [fst snd]. split; [|reflexivity].
    unfold published. cbn [fs set_fs]. apply assoc_fs_put_same. }
  destruct (disk w1) as [|[|] d].
  - destruct (Hwritten (write_buffer tmp_path w1) eq_refl eq_refl)
      as (ls' & Hc & Hp & Hok).
    destruct ((close tmp_path ;;; mv tmp_path prom_path) (write_buffer tmp_path w1))
      as [[[]|e|] w3]; cbn [fst snd] in *; try discriminate.
    exists ls'. split; assumption.
  - destruct (Hwritten (set_disk (write_buffer tmp_path w1) d) eq_refl eq_refl)
      as (ls' & Hc & Hp & Hok).
    destruct ((close tmp_path ;;; mv tmp_path prom_path)
                (set_disk (write_buffer tmp_path w1) d))
      as [[[]|e|] w3]; cbn [fst snd] in *; try discriminate.
    exists ls'. split; assumption.
  - exact Hkeep.
Qed.

Lemma cycle_run (w : world) :
  cycle w =
  match cycle_try tmp_path (snd (open_w tmp_path w)) with
  | (Ok _, w1) => (Ok tt, w1)
  | (Raise e, w1) => close tmp_path (snd (print_exn e w1))
  | (Unfinished, w1) => (Unfinished, w1)
  end.
Proof.
  unfold cycle, bind, open_w, sleep, ret. cbn [snd].
  destruct (cycle_try tmp_path _) as [[[]|e|] w1]; try reflexivity.
  unfold print_exn. cbn [snd].
  destruct (close tmp_path _) as [[[]|e'|] w2]; reflexivity.
Qed.

(** C9: a turn of the loop in which the [try] block raises, be it in a
    transaction, in a conversion or in a write to the temporary file,
    leaves the published file as it was and reports the exception; a turn
    in which it does not raise publishes the three lines of the new
    sample.  Hence after any number of turns the published file is the one
    from before or a complete sample. *)
Theorem cycle_publishes_all_or_nothing (w : world) (n : nat) :
  match fst (cycle_try tmp_path (snd (open_w tmp_path w))) with
  | Ok _ =>
      exists ls, complete_sample ls /\ published (snd (cycle w)) = Some ls
  | Raise e =>
      published (snd (cycle w)) = published w
      /\ stdout (snd (cycle w)) = stdout w ++ [e]
  | Unfinished => published (snd (cycle w)) = published w
  end
  /\ (published (snd (cycles n w)) = published w
      \/ exists ls, complete_sample ls /\ published (snd (cycles n w)) = Some ls).
Proof.
  assert (Hone : forall w0,
    match fst (cycle_try tmp_path (snd (open_w tmp_path w0))) with
    | Ok _ =>
        exists ls, complete_sample ls /\ published (snd (cycle w0)) = Some ls
    | Raise e =>
        published (snd (cycle w0)) = published w0
        /\ stdout (snd (cycle w0)) = stdout w0 ++ [e]
    | Unfinished => published (snd (cycle w0)) = published w0
    end).
  { intros w0. pose proof (cycle_try_run w0) as R. rewrite cycle_run.
    destruct (cycle_try tmp_path (snd (open_w tmp_path w0))) as [[[]|e|] w1];
      cbn [fst snd].
    - exact R.
    - destruct (keeps_published_close (snd (print_exn e w1))) as [-> ->].
      unfold print_exn, published. cbn [snd fs stdout].
      destruct R as [Rp ->]. split; [exact Rp | reflexivity].
    - apply R. }
  split; [apply Hone|].
  revert w. induction n as [|n IH]; intros w; [left; reflexivity|].
  cbn [cycles]. unfold bind.
  assert (Hw : published (snd (cycle w)) = published w
               \/ exists ls, complete_sample ls
                              /\ published (snd (cycle w)) = Some ls).
  { specialize (Hone w).
    destruct (fst (cycle_try tmp_path (snd (open_w tmp_path w))))
      as [[]|e|]; [right; exact Hone | left; apply Hone | left; exact Hone]. }
  destruct (cycle w) as [[[]|e|] w1]; cbn [snd] in *; try exact Hw.
  destruct (IH w1) as [Hsame|Hnew]; [|right; exact Hnew].
  rewrite Hsame. exact Hw.
Qed.

(** ** Every function comes to an end *)

Lemma finishes_bind {A B} (m : M A) (k : A -> M B) :
  finishes m -> (forall a, finishes (k a)) -> finishes (bind m k).
Proof.
  intros Fm Fk w. unfold bind. specialize (Fm w).
  destruct (m w) as [[a|e|] w1]; cbn [fst] in *;
    [apply Fk | discriminate | contradiction].
Qed.

Lemma finishes_lift {A} (r : result A) : r <> Unfinished -> finishes (lift r).
Proof. intros H w. exact H. Qed.

Lemma finishes_ret {A} (a : A) : finishes (ret a).
Proof. intros w. discriminate. Qed.

Lemma finishes_reset : finishes reset_input_buffer.
Proof. intros w. discriminate. Qed.

Lemma finishes_print (f : string) (l : line) : finishes (print_to f l).
Proof. intros w. discriminate. Qed.

Lemma finishes_flush (f : string) : finishes (flush f).
Proof.
  intros w. unfold flush. destruct (buffer w) as [|l ls]; [discriminate|].
  destruct (disk w) as [|[|] d]; discriminate.
Qed.

Lemma finishes_close (f : string) : finishes (close f).
Proof.
  intros w. unfold close. pose proof (finishes_flush f w) as F.
  destruct (flush f w) as [[[]|e|] w1]; cbn [fst] in *;
    [discriminate | discriminate | contradiction].
Qed.

Lemma finishes_mv (a b : string) : finishes (mv a b).
Proof.
  intros w. unfold mv. destruct (assoc a (fs w)); discriminate.
Qed.

Lemma float_of_int_finishes (z : Z) : float_of_int z <> Unfinished.
Proof.
  unfold float_of_int.
  destruct (SpecFloat.binary_normalize _ _ _ _ _); discriminate.
Qed.

Lemma scalefunc_finishes (factor : Z) : scalefunc factor <> Unfinished.
Proof.
  unfold scalefunc, truediv_float_int.
  destruct (0x4000 <=? Z.abs factor); [|discriminate].
  pose proof (float_of_int_finishes (0x8000 - Z.abs factor)) as H.
  destruct (float_of_int (0x8000 - Z.abs factor)) as [y| |];
    [destruct (PrimFloat.eqb y PrimFloat.zero); discriminate
    | discriminate | contradiction].
Qed.

Lemma py_mul_finishes (a b : pyval) : py_mul a b <> Unfinished.
Proof.
  destruct a as [x|f], b as [y|g]; cbn [py_mul]; try discriminate.
  - pose proof (float_of_int_finishes x) as H.
    destruct (float_of_int x); [discriminate | discriminate | contradiction].
  - pose proof (float_of_int_finishes y) as H.
    destruct (float_of_int y); [discriminate | discriminate | contradiction].
Qed.

Lemma calibrate_finishes (raw offset scale : Z) :
  calibrate raw offset scale <> Unfinished.
Proof.
  unfold calibrate. pose proof (scalefunc_finishes scale) as H.
  destruct (scalefunc scale);
    [apply py_mul_finishes | discriminate | contradiction].
Qed.

Lemma unpack_hBh_finishes (buf : list Z) : unpack_hBh buf <> Unfinished.
Proof.
  unfold unpack_hBh.
  do 6 (destruct buf as [|? buf]; try discriminate).
Qed.

Lemma unpack_Hh_finishes (buf : list Z) : unpack_Hh buf <> Unfinished.
Proof.
  unfold unpack_Hh.
  do 5 (destruct buf as [|? buf]; try discriminate).
Qed.

Lemma unpack_BB_finishes (buf : list Z) : unpack_BB buf <> Unfinished.
Proof.
  unfold unpack_BB.
  do 3 (destruct buf as [|? buf]; try discriminate).
Qed.

Lemma unpack_H_finishes (buf : list Z) : unpack_H buf <> Unfinished.
Proof.
  unfold unpack_H.
  do 3 (destruct buf as [|? buf]; try discriminate).
Qed.

Lemma unpack_i_finishes (buf : list Z) : unpack_i buf <> Unfinished.
Proof.
  unfold unpack_i.
  do 5 (destruct buf as [|? buf]; try discriminate).
Qed.

Lemma dc_current_raw_finishes (data : list Z) : dc_current_raw data <> Unfinished.
Proof.
  unfold dc_current_raw, getitem.
  destruct (nth_error data 10); [apply unpack_i_finishes | discriminate].
Qed.

Lemma finishes_sendMK3Command (command : string) :
  finishes (sendMK3Command command).
Proof. intros w. apply sendMK3Command_finishes. Qed.

Lemma finishes_read_scale_offset (command : string) :
  finishes (read_scale_offset command).
Proof.
  unfold read_scale_offset.
  apply finishes_bind; [apply finishes_reset | intros _].
  apply finishes_bind; [apply finishes_sendMK3Command | intros data].
  apply finishes_bind;
    [apply finishes_lift, unpack_hBh_finishes | intros [[scale ignore] offset]].
  apply finishes_ret.
Qed.

Ltac finish_step :=
  first
    [ apply finishes_read_scale_offset
    | apply finishes_reset
    | apply finishes_sendMK3Command
    | apply finishes_print
    | apply finishes_lift;
      first [ apply unpack_Hh_finishes | apply unpack_BB_finishes
            | apply unpack_H_finishes | apply dc_current_raw_finishes
            | apply calibrate_finishes | apply py_mul_finishes ] ].

Lemma finishes_readMultiplus (fileObj : string) : finishes (readMultiplus fileObj).
Proof.
  assert (Hwrap : forall (m : M unit), finishes m -> finishes (reraise_wrapped m)).
  { intros m Fm w. unfold reraise_wrapped. specialize (Fm w).
    destruct (m w) as [[a|e|] w1]; cbn [fst] in *;
      [discriminate | discriminate | contradiction]. }
  unfold readMultiplus. apply Hwrap.
  repeat (apply finishes_bind;
          [finish_step | intros ?;
             repeat match goal with
               | p : (_ * _)%type |- _ => destruct p
               end]).
  finish_step.
Qed.

(** A turn of the loop comes to an end. *)
Lemma cycle_finishes (w : world) : fst (cycle w) <> Unfinished.
Proof.
  rewrite cycle_run.
  assert (F : finishes (cycle_try tmp_path)).
  { unfold cycle_try.
    apply finishes_bind; [apply finishes_readMultiplus | intros _].
    apply finishes_bind; [apply finishes_flush | intros _].
    apply finishes_bind; [apply finishes_close | intros _].
    apply finishes_mv. }
  specialize (F (snd (open_w tmp_path w))).
  destruct (cycle_try tmp_path (snd (open_w tmp_path w))) as [[[]|e|] w1];
    cbn [fst] in *; [discriminate | apply finishes_close | contradiction].
Qed.


(** ** The loop at work *)

(** The scenario of the specification: scale [0x0010], offset 5 and the
    raw value 100 give 1680. *)
Example calibrate_1680 : calibrate 100 5 16 = Ok (PyInt 1680).
Proof. reflexivity. Qed.

(** A turn that succeeds publishes the new sample. *)
Example cycle_publishes :
  published (snd (cycle (sample_world 32767 []))) =
  Some [(metric "batVolts", PyInt 1680);
        (metric "batAmps", PyFloat (-8388592)%float);
        (metric "outputW", PyFloat (-14092834560)%float)].
Proof. vm_compute. reflexivity. Qed.

(** A turn in which [scalefunc] divides by zero publishes nothing. *)
Example cycle_keeps_on_error :
  published (snd (cycle (sample_world 32768 []))) = Some old_sample
  /\ stdout (snd (cycle (sample_world 32768 []))) = [Wrapped ZeroDivisionError].
Proof. vm_compute. split; reflexivity. Qed.

(** A turn in which the ramdisk refuses the [flush] publishes nothing;
    the [close] of the handler then writes the three lines to the
    temporary file. *)
Example cycle_keeps_on_refused_flush :
  fst (cycle (sample_world 32767 [false])) = Ok tt
  /\ published (snd (cycle (sample_world 32767 [false]))) = Some old_sample
  /\ option_map (@List.length line)
       (assoc tmp_path (fs (snd (cycle (sample_world 32767 [false]))))) = Some 3%nat
  /\ stdout (snd (cycle (sample_world 32767 [false]))) = [OSError].
Proof. vm_compute. repeat split; reflexivity. Qed.

(** When the ramdisk also refuses the write of the [close] in the
    handler, the exception leaves the turn, and the loop: nothing is
    published, and no later turn runs. *)
Example cycle_stops_on_refused_close :
  fst (cycle (sample_world 32767 [false; false])) = Raise OSError
  /\ fst (cycles 3 (sample_world 32767 [false; false])) = Raise OSError
  /\ published (snd (cycles 3 (sample_world 32767 [false; false]))) = Some old_sample
  /\ stdout (snd (cycles 3 (sample_world 32767 [false; false]))) = [OSError]
  /\ List.length (tx (snd (cycles 3 (sample_world 32767 [false; false])))) = 6%nat.
Proof. vm_compute. repeat split; reflexivity. Qed.

(** * Further properties *)

(** ** Frames built by [makeMK3Command] *)

(** X1: a command that parses gives a frame of [len(P) + 3] elements whose
    sum is a multiple of 256, so that it passes the test of [readResult];
    the payload sits between the two header elements and the checksum. *)
Theorem makeMK3Command_sum_closes (command : string) (P : list Z) :
  fromhex command = Ok P ->
  exists c,
    makeMK3Command command = Ok c
    /\ List.length c = (List.length P + 3)%nat
    /\ py_sum c mod 256 = 0
    /\ firstn 2 c = [Z.of_nat (List.length P) + 1; 0xFF]
    /\ firstn (List.length P) (skipn 2 c) = P.
Proof.
  intros HP.
  destruct (makeMK3Command_shape command P HP) as [E _].
  eexists. split; [exact E|].
  set (L := Z.of_nat (List.length P) + 1).
  set (cs := 256 - py_sum ([L; 255] ++ P) mod 256).
  repeat split.
  - rewrite !length_app. cbn [List.length]. lia.
  - rewrite py_sum_app. cbn [py_sum fold_right].
    replace (py_sum ([L; 255] ++ P) + (cs + 0))
      with (py_sum ([L; 255] ++ P) + cs) by lia.
    apply checksum_closes.
  - cbn [app skipn]. rewrite firstn_app, Nat.sub_diag, firstn_all.
    cbn [firstn]. apply app_nil_r.
Qed.

Lemma makeMK3Command_sum_closes_witness :
  exists c,
    makeMK3Command "57 36 02 00" = Ok c
    /\ List.length c = (4 + 3)%nat
    /\ py_sum c mod 256 = 0
    /\ firstn 2 c = [Z.of_nat 4 + 1; 0xFF]
    /\ firstn 4 (skipn 2 c) = [87; 54; 2; 0].
Proof.
  exact (makeMK3Command_sum_closes "57 36 02 00" [87; 54; 2; 0] eq_refl).
Defined.

(** X2: the value appended as checksum lies between 1 and 256 and is never
    0; it is 256, hence no byte, exactly when the header and payload sum
    up to a multiple of 256, and the checksum of the specification
    otherwise. *)
Theorem makeMK3Command_checksum_range (command : string) (P : list Z) :
  fromhex command = Ok P ->
  exists cs,
    makeMK3Command command = Ok (([Z.of_nat (List.length P) + 1; 0xFF] ++ P) ++ [cs])
    /\ 1 <= cs <= 256
    /\ (cs = 256 <-> py_sum ([Z.of_nat (List.length P) + 1; 0xFF] ++ P) mod 256 = 0)
    /\ (cs <> 256 ->
        cs = spec_checksum ([Z.of_nat (List.length P) + 1; 0xFF] ++ P)).
Proof.
  intros HP.
  destruct (makeMK3Command_shape command P HP) as (E & B & Hn & _).
  eexists. split; [exact E|]. split; [exact B|]. split.
  - split; intros H; lia.
  - intros H. apply Hn. lia.
Qed.

Lemma makeMK3Command_checksum_range_witness :
  exists cs,
    makeMK3Command "46 00" = Ok (([Z.of_nat 2 + 1; 0xFF] ++ [70; 0]) ++ [cs])
    /\ 1 <= cs <= 256
    /\ (cs = 256 <-> py_sum ([Z.of_nat 2 + 1; 0xFF] ++ [70; 0]) mod 256 = 0)
    /\ (cs <> 256 -> cs = spec_checksum ([Z.of_nat 2 + 1; 0xFF] ++ [70; 0])).
Proof.
  exact (makeMK3Command_checksum_range "46 00" [70; 0] eq_refl).
Defined.

(** ** Commands that cannot be sent *)

Lemma fromhex_raises_bounded (n : nat) :
  forall s e, (String.length s <= n)%nat -> fromhex s = Raise e -> e = ValueError.
Proof.
  induction n as [|n IH]; intros s e Hs.
  - destruct s; [discriminate | cbn in Hs; lia].
  - destruct s as [|c s]; [discriminate|].
    cbn [String.length] in Hs. cbn [fromhex].
    destruct (isspace c); [apply IH; lia|].
    destruct (hexval c); [|intros H; injection H as <-; reflexivity].
    destruct s as [|d s]; [intros H; injection H as <-; reflexivity|].
    destruct (hexval d); [|intros H; injection H as <-; reflexivity].
    cbn [String.length] in Hs.
    specialize (IH s e ltac:(lia)).
    destruct (fromhex s); [discriminate | exact IH | discriminate].
Qed.

Lemma makeMK3Command_raises (command : string) (e : exn) :
  makeMK3Command command = Raise e -> e = ValueError.
Proof.
  unfold makeMK3Command.
  pose proof (fromhex_raises_bounded (String.length command) command) as H.
  destruct (fromhex command) as [P|e'|]; try discriminate.
  intros E. injection E as <-. apply (H e' (Nat.le_refl _) eq_refl).
Qed.

(** X3: when the command string is malformed, or when its frame holds an
    element that is no byte, [sendMK3Command] raises [ValueError] before it
    touches the port: nothing is written, nothing is read. *)
Theorem sendMK3Command_unsendable (command : string) (w : world) :
  (forall c, makeMK3Command command = Ok c -> forallb is_byte c = false) ->
  sendMK3Command command w = (Raise ValueError, w).
Proof.
  intros H. unfold sendMK3Command, bind, lift, write.
  pose proof (makeMK3Command_raises command) as R.
  pose proof (makeMK3Command_finishes command) as F.
  destruct (makeMK3Command command) as [c|e|].
  - rewrite (H c eq_refl). reflexivity.
  - rewrite (R e eq_refl). reflexivity.
  - contradiction.
Qed.

Lemma sendMK3Command_unsendable_witness :
  sendMK3Command "4" (incoming [1; 2; 3]) = (Raise ValueError, incoming [1; 2; 3])
  /\ sendMK3Command "FF" (incoming [1; 2; 3]) = (Raise ValueError, incoming [1; 2; 3]).
Proof.
  split.
  - apply (sendMK3Command_unsendable "4" (incoming [1; 2; 3])).
    intros c H. discriminate H.
  - apply (sendMK3Command_unsendable "FF" (incoming [1; 2; 3])).
    intros c H. injection H as <-. reflexivity.
Defined.

(** ** What [readResult] returns and what it takes *)

(** X4: two frames that arrive one after the other are returned by two
    calls of [readResult], in order, and what follows them stays in the
    buffer. *)
Theorem readResult_twice (w : world) (f1 f2 more : list Z) :
  valid_frame f1 = true ->
  valid_frame f2 = true ->
  rx w = f1 ++ f2 ++ more ->
  (d1 <- readResult ;; d2 <- readResult ;; ret (d1, d2)) w =
  (Ok (frame_data f1, frame_data f2), set_rx w more).
Proof.
  intros H1 H2 Hrx. unfold bind, ret.
  rewrite (readResult_valid_frame w f1 (f2 ++ more) H1 Hrx).
  rewrite (readResult_valid_frame (set_rx w (f2 ++ more)) f2 more H2 eq_refl).
  reflexivity.
Qed.

Lemma readResult_twice_witness :
  (d1 <- readResult ;; d2 <- readResult ;; ret (d1, d2))
    (incoming ([3; 255; 86; 1; 167] ++ [2; 32; 7; 215] ++ [9])) =
  (Ok ([255; 86; 1; 167; 3], [32; 7; 215; 2]), incoming [9]).
Proof.
  exact (readResult_twice (incoming ([3; 255; 86; 1; 167] ++ [2; 32; 7; 215] ++ [9]))
           [3; 255; 86; 1; 167] [2; 32; 7; 215] [9] eq_refl eq_refl eq_refl).
Defined.

(** X5: whatever [readResult] returns is not empty, ends with the length
    byte that was read, sums up to a multiple of 256 and has at most
    [l + 2] elements. *)
Theorem readResult_data_invariant (w w' : world) (data : list Z) :
  readResult w = (Ok data, w') ->
  data <> []
  /\ last data 0 = frame_len w
  /\ removelast data = frame_rest w
  /\ py_sum data mod 256 = 0
  /\ (List.length data <= Z.to_nat (frame_len w + 1) + 1)%nat.
Proof.
  rewrite readResult_unfold.
  destruct ((frame_len w + py_sum (frame_rest w)) mod 256 =? 0) eqn:E;
    [|discriminate].
  intros H. injection H as <- _. apply Z.eqb_eq in E.
  repeat split.
  - intros H. apply app_eq_nil in H. destruct H as [_ H]. discriminate H.
  - apply last_last.
  - apply removelast_last.
  - rewrite py_sum_app. cbn [py_sum fold_right].
    replace (py_sum (frame_rest w) + (frame_len w + 0))
      with (frame_len w + py_sum (frame_rest w)) by lia.
    exact E.
  - rewrite length_app. cbn [List.length]. unfold frame_rest.
    rewrite length_firstn. lia.
Qed.

Lemma readResult_data_invariant_witness :
  [32; 7; 215; 2] <> []
  /\ last [32; 7; 215; 2] 0 = frame_len (incoming [2; 32; 7; 215; 9])
  /\ removelast [32; 7; 215; 2] = frame_rest (incoming [2; 32; 7; 215; 9])
  /\ py_sum [32; 7; 215; 2] mod 256 = 0
  /\ (List.length [32; 7; 215; 2]%Z
      <= Z.to_nat (frame_len (incoming [2; 32; 7; 215; 9]%Z) + 1)%Z + 1)%nat.
Proof.
  exact (readResult_data_invariant (incoming [2; 32; 7; 215; 9]) (incoming [9])
           [32; 7; 215; 2] eq_refl).
Defined.

(** X6: [readResult] raises nothing but the checksum exception, and,
    whether it returns or raises, it only takes bytes from the front of the
    input buffer, at most [l + 2] of them, and leaves the rest of the world
    alone: a frame that fails the test is gone from the buffer all the
    same. *)
Theorem readResult_takes_from_front (w : world) :
  (forall e, fst (readResult w) = Raise e -> e = ChecksumFailed)
  /\ fst (readResult w) <> Unfinished
  /\ exists used,
       rx w = used ++ rx (snd (readResult w))
       /\ (List.length used <= Z.to_nat (frame_len w + 1) + 1)%nat
       /\ snd (readResult w) = set_rx w (rx (snd (readResult w))).
Proof.
  rewrite readResult_world. split; [|split].
  - rewrite readResult_unfold. intros e.
    destruct (_ =? 0); cbn [fst]; [discriminate|].
    intros H. injection H as <-. reflexivity.
  - rewrite readResult_unfold. destruct (_ =? 0); discriminate.
  - exists (firstn 1 (rx w) ++ firstn (Z.to_nat (frame_len w + 1)) (skipn 1 (rx w))).
    cbn [rx set_rx]. repeat split.
    + rewrite <- app_assoc, firstn_skipn, firstn_skipn. reflexivity.
    + rewrite length_app, !length_firstn. lia.
Qed.

(** ** The loop of [sendMK3Command] *)

(** The index [data[1]] of the loop test is in range on everything
    [readResult] returns: a one-element result is the length alone, and
    then [data[0]] is a multiple of 256 and not [0xFF]. *)
Lemma not_version_frame_defined (w w' : world) (data : list Z) :
  readResult w = (Ok data, w') -> exists b, not_version_frame data = Ok b.
Proof.
  rewrite readResult_unfold.
  destruct ((frame_len w + py_sum (frame_rest w)) mod 256 =? 0) eqn:E;
    [|discriminate].
  intros H. injection H as <- _. apply Z.eqb_eq in E.
  unfold not_version_frame, getitem.
  destruct (frame_rest w) as [|r0 rest].
  - cbn [app nth_error]. cbn [py_sum fold_right] in E.
    destruct (Z.eqb_spec (frame_len w) 0xFF) as [H255|_]; cbn [negb].
    + rewrite H255 in E. discriminate E.
    + eexists. reflexivity.
  - cbn [app nth_error].
    destruct (negb (r0 =? 0xFF)); [eexists; reflexivity|].
    destruct rest as [|r1 rest]; cbn [app nth_error]; eexists; reflexivity.
Qed.

Lemma read_until_answer_raises (fuel : nat) :
  forall w e, fst (read_until_answer fuel w) = Raise e -> e = ChecksumFailed.
Proof.
  induction fuel as [|fuel IH]; intros w e; [discriminate|].
  cbn [read_until_answer]. unfold bind, lift, ret.
  destruct (readResult_takes_from_front w) as (Hraise & _ & _).
  destruct (readResult w) as [[data|e'|] w1] eqn:E; cbn [fst] in *.
  - destruct (not_version_frame_defined _ _ _ E) as [b Hb]. rewrite Hb.
    destruct b; [discriminate | apply IH].
  - intros H. injection H as <-. apply Hraise. reflexivity.
  - discriminate.
Qed.

(** X7: the only exceptions that leave [sendMK3Command] are
    [ValueError], for a command that cannot be sent, and the checksum
    exception; in particular the test on [data[1]] never raises
    [IndexError]. *)
Theorem sendMK3Command_exceptions (command : string) (w : world) (e : exn) :
  fst (sendMK3Command command w) = Raise e ->
  e = ValueError \/ e = ChecksumFailed.
Proof.
  unfold sendMK3Command, bind, lift, write.
  pose proof (makeMK3Command_raises command) as R.
  destruct (makeMK3Command command) as [c|e'|]; cbn [fst].
  - destruct (forallb is_byte c); cbn [fst].
    + intros H. right. exact (read_until_answer_raises _ _ _ H).
    + intros H. injection H as <-. left. reflexivity.
  - intros H. injection H as <-. left. apply R. reflexivity.
  - discriminate.
Qed.

Lemma sendMK3Command_exceptions_witness :
  ChecksumFailed = ValueError \/ ChecksumFailed = ChecksumFailed.
Proof.
  exact (sendMK3Command_exceptions "46 00"
           (mkWorld [] [[255]] [] [] [] [] []) ChecksumFailed eq_refl).
Defined.

(** Version broadcasts at the head of the input cost one turn of the loop
    each and are dropped. *)
Lemma read_until_answer_after_broadcasts (bs : list (list Z)) :
  forall (k : nat) (w : world) (r : list Z),
    forallb (fun b => valid_frame b && broadcast b) bs = true ->
    rx w = List.concat bs ++ r ->
    read_until_answer (List.length bs + k) w = read_until_answer k (set_rx w r).
Proof.
  induction bs as [|b bs IH]; intros k w r Hbs Hrx.
  - cbn [List.concat app] in Hrx. cbn [List.length Nat.add].
    rewrite <- Hrx, set_rx_same. reflexivity.
  - cbn [forallb] in Hbs. apply andb_true_iff in Hbs. destruct Hbs as [Hb Hbs].
    apply andb_true_iff in Hb. destruct Hb as [Hv Hbc].
    cbn [List.concat] in Hrx. rewrite <- app_assoc in Hrx.
    cbn [List.length Nat.add read_until_answer]. unfold bind, lift, ret.
    rewrite (readResult_valid_frame w b _ Hv Hrx).
    rewrite (not_version_frame_data b Hv), Hbc. cbn [negb].
    rewrite (IH k (set_rx w (List.concat bs ++ r)) r Hbs eq_refl).
    reflexivity.
Qed.

Lemma sendMK3Command_after_broadcasts
  (command : string) (c : list Z) (w : world) (bs : list (list Z)) (r : list Z) :
  makeMK3Command command = Ok c ->
  forallb is_byte c = true ->
  forallb (fun b => valid_frame b && broadcast b) bs = true ->
  rx w ++ hd [] (pending w) = List.concat bs ++ r ->
  exists k,
    sendMK3Command command w =
    read_until_answer (S k)
      (mkWorld r (tl (pending w)) (tx w ++ [c]) (fs w) (stdout w) (disk w) (buffer w)).
Proof.
  intros Hc Hbytes Hbs Hrx.
  unfold sendMK3Command, bind, lift, write. rewrite Hc, Hbytes.
  cbn [rx]. rewrite Hrx.
  pose proof (length_concat_frames bs Hbs) as Hlen.
  exists (List.length (List.concat bs ++ r) - List.length bs)%nat.
  replace (S (List.length (List.concat bs ++ r)))
    with (List.length bs + S (List.length (List.concat bs ++ r) - List.length bs))%nat
    by (rewrite length_app; lia).
  rewrite (read_until_answer_after_broadcasts bs _ _ r Hbs); reflexivity.
Qed.

(** X8: when the device stays silent, or sends version broadcasts and
    nothing else, [sendMK3Command] does not fail: after the broadcasts the
    empty read passes the checksum test and the one-element result [[0]]
    is returned as the answer. *)
Theorem sendMK3Command_silence
  (command : string) (c : list Z) (w : world) (bs : list (list Z)) :
  makeMK3Command command = Ok c ->
  forallb is_byte c = true ->
  forallb (fun b => valid_frame b && broadcast b) bs = true ->
  rx w ++ hd [] (pending w) = List.concat bs ->
  sendMK3Command command w =
  (Ok [0], mkWorld [] (tl (pending w)) (tx w ++ [c]) (fs w) (stdout w) (disk w) (buffer w)).
Proof.
  intros Hc Hbytes Hbs Hrx.
  destruct (sendMK3Command_after_broadcasts command c w bs [] Hc Hbytes Hbs)
    as [k ->]; [rewrite app_nil_r; exact Hrx|].
  cbn [read_until_answer]. unfold bind, lift, ret.
  rewrite readResult_nil by reflexivity. reflexivity.
Qed.

Lemma sendMK3Command_silence_witness :
  sendMK3Command "46 00" (mkWorld [] [[3; 255; 86; 1; 167]] [] [] [] [] []) =
  (Ok [0], mkWorld [] [] [[3; 255; 70; 0; 184]] [] [] [] []).
Proof.
  exact (sendMK3Command_silence "46 00" [3; 255; 70; 0; 184]
           (mkWorld [] [[3; 255; 86; 1; 167]] [] [] [] [] [])
           [[3; 255; 86; 1; 167]] eq_refl eq_refl eq_refl eq_refl).
Defined.

(** X9: a frame with a wrong checksum ends the transaction with the
    checksum exception, also behind version broadcasts, which are dropped
    first; the frame is consumed, what follows it stays in the buffer, and
    the command is not written again. *)
Theorem sendMK3Command_checksum_failure
  (command : string) (c : list Z) (w : world)
  (bs : list (list Z)) (l : Z) (rest tail : list Z) :
  makeMK3Command command = Ok c ->
  forallb is_byte c = true ->
  forallb (fun b => valid_frame b && broadcast b) bs = true ->
  Z.of_nat (List.length rest) = l + 1 ->
  (l + py_sum rest) mod 256 <> 0 ->
  rx w ++ hd [] (pending w) = List.concat bs ++ (l :: rest) ++ tail ->
  sendMK3Command command w =
  (Raise ChecksumFailed,
   mkWorld tail (tl (pending w)) (tx w ++ [c]) (fs w) (stdout w) (disk w) (buffer w)).
Proof.
  intros Hc Hbytes Hbs Hlen Hsum Hrx.
  destruct (sendMK3Command_after_broadcasts command c w bs ((l :: rest) ++ tail)
              Hc Hbytes Hbs Hrx) as [k ->].
  cbn [read_until_answer]. unfold bind, lift, ret.
  rewrite (readResult_frame
             (mkWorld ((l :: rest) ++ tail) (tl (pending w)) (tx w ++ [c])
                (fs w) (stdout w) (disk w) (buffer w)) l rest tail eq_refl Hlen).
  apply Z.eqb_neq in Hsum. rewrite Hsum. reflexivity.
Qed.

Lemma sendMK3Command_checksum_failure_witness :
  sendMK3Command "46 00"
    (mkWorld [] [[3; 255; 86; 1; 167] ++ [2; 32; 7; 0] ++ [9]] [] [] [] [] []) =
  (Raise ChecksumFailed, mkWorld [9] [] [[3; 255; 70; 0; 184]] [] [] [] []).
Proof.
  apply (sendMK3Command_checksum_failure "46 00" [3; 255; 70; 0; 184]
           (mkWorld [] [[3; 255; 86; 1; 167] ++ [2; 32; 7; 0] ++ [9]] [] [] [] [] [])
           [[3; 255; 86; 1; 167]] 2 [32; 7; 0] [9]);
    try reflexivity.
  vm_compute. discriminate.
Defined.

(** X10: whatever arrives, a command that can be sent is written to the
    port exactly once and uses up one answer of the device; the files and
    the standard output are left alone. *)
Theorem sendMK3Command_writes_once (command : string) (c : list Z) (w : world) :
  makeMK3Command command = Ok c ->
  forallb is_byte c = true ->
  tx (snd (sendMK3Command command w)) = tx w ++ [c]
  /\ pending (snd (sendMK3Command command w)) = tl (pending w)
  /\ fs (snd (sendMK3Command command w)) = fs w
  /\ stdout (snd (sendMK3Command command w)) = stdout w.
Proof.
  intros Hc Hb.
  destruct (sendMK3Command_world command c w Hc Hb) as [X ->].
  repeat split.
Qed.

Lemma sendMK3Command_writes_once_witness :
  tx (snd (sendMK3Command "46 00" (incoming [1; 0; 0]))) = [] ++ [[3; 255; 70; 0; 184]]
  /\ pending (snd (sendMK3Command "46 00" (incoming [1; 0; 0]))) = tl []
  /\ fs (snd (sendMK3Command "46 00" (incoming [1; 0; 0]))) = []
  /\ stdout (snd (sendMK3Command "46 00" (incoming [1; 0; 0]))) = [].
Proof.
  exact (sendMK3Command_writes_once "46 00" [3; 255; 70; 0; 184]
           (incoming [1; 0; 0]) eq_refl eq_refl).
Defined.

(** ** The fields of the answers *)

Lemma to_signed_16_range (b0 b1 : Z) :
  0 <= b0 < 256 -> 0 <= b1 < 256 ->
  -32768 <= to_signed 16 (le_unsigned [b0; b1]) <= 32767
  /\ to_signed 16 (le_unsigned [b0; b1]) mod 65536 = b0 + 256 * b1.
Proof.
  intros H0 H1. unfold to_signed, le_unsigned. cbn [fold_right].
  change (2 ^ (16 - 1)) with 32768. change (2 ^ 16) with 65536.
  destruct (Z.ltb_spec (b0 + 256 * (b1 + 256 * 0)) 32768).
  - split; [lia|]. rewrite Z.mod_small; lia.
  - split; [lia|].
    replace (b0 + 256 * (b1 + 256 * 0) - 65536)
      with (b0 + 256 * b1 + (-1) * 65536) by lia.
    rewrite Z.mod_add by lia. rewrite Z.mod_small; lia.
Qed.

(** X11: [unpack('<h B h', data[3:8])] raises [struct.error] exactly when
    the answer has fewer than 8 elements; otherwise scale and offset are
    the 16-bit two's-complement readings of [data[3:5]] and [data[6:8]],
    and [data[5]] is passed over. *)
Theorem unpack_scale_offset (data : list Z) :
  forallb is_byte data = true ->
  ((List.length data < 8)%nat -> unpack_hBh (slice data 3 8) = Raise StructError)
  /\ ((8 <= List.length data)%nat ->
      exists scale offset,
        unpack_hBh (slice data 3 8) = Ok (scale, nth 5 data 0, offset)
        /\ -32768 <= scale <= 32767
        /\ scale mod 65536 = nth 3 data 0 + 256 * nth 4 data 0
        /\ -32768 <= offset <= 32767
        /\ offset mod 65536 = nth 6 data 0 + 256 * nth 7 data 0).
Proof.
  intros Hb.
  assert (B : forall i, (i < List.length data)%nat -> 0 <= nth i data 0 < 256)
    by (intros i; apply nth_is_byte; exact Hb).
  do 8 (destruct data as [|? data];
        [split; [intros _; reflexivity | cbn [List.length]; lia]|]).
  split; [cbn [List.length]; lia | intros _].
  pose proof (B 3%nat ltac:(cbn [List.length]; lia)) as B3.
  pose proof (B 4%nat ltac:(cbn [List.length]; lia)) as B4.
  pose proof (B 6%nat ltac:(cbn [List.length]; lia)) as B6.
  pose proof (B 7%nat ltac:(cbn [List.length]; lia)) as B7.
  cbn [nth] in *.
  destruct (to_signed_16_range _ _ B3 B4) as [R1 M1].
  destruct (to_signed_16_range _ _ B6 B7) as [R2 M2].
  unfold slice. cbn [Nat.sub skipn firstn unpack_hBh].
  eexists. eexists. split; [reflexivity|].
  repeat split; assumption || apply R1 || apply R2.
Qed.

Lemma unpack_scale_offset_witness :
  exists scale offset,
    unpack_hBh (slice [255; 87; 142; 16; 0; 0; 251; 255; 9; 8] 3 8)
    = Ok (scale, nth 5 [255; 87; 142; 16; 0; 0; 251; 255; 9; 8] 0, offset)
    /\ -32768 <= scale <= 32767
    /\ scale mod 65536 = 16 + 256 * 0
    /\ -32768 <= offset <= 32767
    /\ offset mod 65536 = 251 + 256 * 255.
Proof.
  apply (proj2 (unpack_scale_offset [255; 87; 142; 16; 0; 0; 251; 255; 9; 8] eq_refl)).
  cbn [List.length]. lia.
Defined.

(** X12: the raw DC current raises [IndexError], and never
    [struct.error], exactly when the answer has fewer than 11 elements;
    otherwise it is the reading of [data[8:11]] as a 24-bit
    two's-complement number, from [-2^23] to [2^23 - 1]. *)
Theorem dc_current_raw_domain (data : list Z) :
  forallb is_byte data = true ->
  ((List.length data < 11)%nat -> dc_current_raw data = Raise IndexError)
  /\ ((11 <= List.length data)%nat ->
      exists v,
        dc_current_raw data = Ok v
        /\ -8388608 <= v <= 8388607
        /\ v mod 16777216
           = nth 8 data 0 + 256 * nth 9 data 0 + 65536 * nth 10 data 0).
Proof.
  intros Hb.
  assert (B : forall i, (i < List.length data)%nat -> 0 <= nth i data 0 < 256)
    by (intros i; apply nth_is_byte; exact Hb).
  do 11 (destruct data as [|? data];
         [split; [intros _; reflexivity | cbn [List.length]; lia]|]).
  split; [cbn [List.length]; lia | intros _].
  pose proof (B 8%nat ltac:(cbn [List.length]; lia)) as B8.
  pose proof (B 9%nat ltac:(cbn [List.length]; lia)) as B9.
  pose proof (B 10%nat ltac:(cbn [List.length]; lia)) as B10.
  cbn [nth] in *.
  unfold dc_current_raw, slice, getitem.
  cbn [Nat.sub skipn firstn nth_error].
  match goal with
  | |- context [?b <? 0x80] => destruct (Z.ltb_spec b 0x80) as [Hlt|Hge]
  end; cbn [app unpack_i]; (eexists; split; [reflexivity|]);
    unfold to_signed, le_unsigned; cbn [fold_right];
    change (2 ^ (32 - 1)) with 2147483648; change (2 ^ 32) with 4294967296.
  - match goal with
    | |- context [?x <? 2147483648] => destruct (Z.ltb_spec x 2147483648); [|lia]
    end.
    split; [lia|]. rewrite Z.mod_small; lia.
  - match goal with
    | |- context [?x <? 2147483648] => destruct (Z.ltb_spec x 2147483648); [lia|]
    end.
    split; [lia|].
    match goal with
    | |- (?a + 256 * (?b + 256 * (?c + 256 * (255 + 256 * 0))) - 4294967296)
           mod 16777216 = _ =>
        replace (a + 256 * (b + 256 * (c + 256 * (255 + 256 * 0))) - 4294967296)
          with (a + 256 * b + 65536 * c + (-1) * 16777216) by lia
    end.
    rewrite Z.mod_add by lia. rewrite Z.mod_small; lia.
Qed.

Lemma dc_current_raw_domain_witness :
  dc_current_raw [32; 1; 2; 3; 4; 12; 100; 0; 16; 0] = Raise IndexError
  /\ exists v,
       dc_current_raw [32; 1; 2; 3; 4; 12; 100; 0; 16; 0; 128; 0; 7] = Ok v
       /\ -8388608 <= v <= 8388607
       /\ v mod 16777216 = 16 + 256 * 0 + 65536 * 128.
Proof.
  split.
  - apply (proj1 (dc_current_raw_domain [32; 1; 2; 3; 4; 12; 100; 0; 16; 0] eq_refl)).
    cbn [List.length]. lia.
  - apply (proj2 (dc_current_raw_domain
                    [32; 1; 2; 3; 4; 12; 100; 0; 16; 0; 128; 0; 7] eq_refl)).
    cbn [List.length]. lia.
Defined.

(** ** The handshake, further *)

(** X13: [initMK3] throws away whatever is in the input buffer and
    whatever the device sends in answer to the version command: it behaves
    as on an empty buffer and a device that stays silent on that command. *)
Theorem initMK3_discards_stale_input (w : world) :
  initMK3 w =
  initMK3 (mkWorld [] ([] :: tl (pending w)) (tx w) (fs w) (stdout w) (disk w) (buffer w)).
Proof.
  unfold initMK3, bind, lift, sleep, ret, reset_input_buffer.
  change (makeMK3Command "56") with (Ok version_command).
  unfold write. change (forallb is_byte version_command) with true.
  reflexivity.
Qed.

(** X14: when the answer to the address command is a frame that is no
    version broadcast, with or without version broadcasts ahead of it, the
    handshake succeeds at the first attempt: the two commands are written
    once each and the rest of the answer stays in the buffer. *)
Theorem initMK3_succeeds (w : world) (bs : list (list Z)) (f tail : list Z) :
  forallb (fun b => valid_frame b && broadcast b) bs = true ->
  valid_frame f = true ->
  broadcast f = false ->
  hd [] (tl (pending w)) = List.concat bs ++ f ++ tail ->
  initMK3 w =
  (Ok tt,
   mkWorld tail (tl (tl (pending w))) (tx w ++ [version_command; address_command])
     (fs w) (stdout w) (disk w) (buffer w)).
Proof.
  intros Hbs Hf Hnb Hans.
  unfold initMK3, bind, lift, sleep, ret, reset_input_buffer.
  change (makeMK3Command "56") with (Ok version_command).
  unfold write at 1. change (forallb is_byte version_command) with true.
  cbv iota. cbn [for_range]. unfold bind.
  rewrite initMK3_attempt_outcome.
  match goal with
  | |- context [sendMK3Command "41 01 00" ?w1] =>
      destruct (sendMK3Command_after_broadcasts "41 01 00" address_command w1 bs
                  (f ++ tail) eq_refl eq_refl Hbs) as [k ->];
      [cbn [rx pending set_rx app]; exact Hans|]
  end.
  cbn [read_until_answer]. unfold bind, lift, ret.
  rewrite (readResult_valid_frame _ f tail Hf) by reflexivity.
  rewrite (not_version_frame_data f Hf), Hnb. cbn [negb].
  cbn [tl pending tx fs stdout disk set_rx]. rewrite <- app_assoc. reflexivity.
Qed.

Lemma initMK3_succeeds_witness :
  initMK3 (mkWorld [7] [[1; 2]; [3; 255; 86; 1; 167] ++ [1; 65; 190] ++ [9]; [5]]
             [] [] [] [] []) =
  (Ok tt, mkWorld [9] [[5]] [version_command; address_command] [] [] [] []).
Proof.
  exact (initMK3_succeeds
           (mkWorld [7] [[1; 2]; [3; 255; 86; 1; 167] ++ [1; 65; 190] ++ [9]; [5]]
              [] [] [] [] [])
           [[3; 255; 86; 1; 167]] [1; 65; 190] [9]
           eq_refl eq_refl eq_refl eq_refl).
Defined.

(** ** The transactions of [readMultiplus] *)

Lemma sends_silent {A} (m : M A) :
  (forall w, tx (snd (m w)) = tx w) -> sends [] m.
Proof.
  intros H w. exists [], []. repeat split.
  rewrite H, app_nil_r. reflexivity.
Qed.

Lemma sends_bind_silent {A B} (cmds : list (list Z)) (m : M A) (k : A -> M B) :
  sends [] m -> (forall a, sends cmds (k a)) -> sends cmds (bind m k).
Proof.
  intros Sm Sk w. unfold bind.
  destruct (Sm w) as (p & q & Hpq & Htx & _).
  symmetry in Hpq. apply app_eq_nil in Hpq. destruct Hpq as [-> ->].
  rewrite app_nil_r in Htx.
  destruct (m w) as [[a|e|] w1]; cbn [fst snd] in *.
  - destruct (Sk a w1) as (p & q & Hpq & Htx' & Hok).
    exists p, q. rewrite Htx', Htx. repeat split; assumption.
  - exists [], cmds. rewrite Htx, app_nil_r. repeat split. discriminate.
  - exists [], cmds. rewrite Htx, app_nil_r. repeat split. discriminate.
Qed.

Lemma sends_bind_cons {A B} (c : list Z) (cmds : list (list Z))
  (m : M A) (k : A -> M B) :
  (forall w, tx (snd (m w)) = tx w ++ [c]) ->
  (forall a, sends cmds (k a)) -> sends (c :: cmds) (bind m k).
Proof.
  intros Sm Sk w. unfold bind. specialize (Sm w).
  destruct (m w) as [[a|e|] w1]; cbn [fst snd] in *.
  - destruct (Sk a w1) as (p & q & Hpq & Htx' & Hok).
    exists (c :: p), q. rewrite Htx', Sm, Hpq, <- app_assoc.
    repeat split; assumption.
  - exists [c], cmds. repeat split; [exact Sm | discriminate].
  - exists [c], cmds. repeat split; [exact Sm | discriminate].
Qed.

Lemma tx_sendMK3Command (command : string) (c : list Z) (w : world) :
  makeMK3Command command = Ok c ->
  forallb is_byte c = true ->
  tx (snd (sendMK3Command command w)) = tx w ++ [c].
Proof.
  intros Hc Hb.
  destruct (sendMK3Command_world command c w Hc Hb) as [X ->]. reflexivity.
Qed.

Lemma tx_read_scale_offset (command : string) (c : list Z) (w : world) :
  makeMK3Command command = Ok c ->
  forallb is_byte c = true ->
  tx (snd (read_scale_offset command w)) = tx w ++ [c].
Proof.
  intros Hc Hb. unfold read_scale_offset, bind, reset_input_buffer, lift, ret.
  pose proof (tx_sendMK3Command command c (set_rx w []) Hc Hb) as H.
  destruct (sendMK3Command command (set_rx w [])) as [[data|e|] w1];
    cbn [snd] in *; try exact H.
  destruct (unpack_hBh (slice data 3 8)) as [[[scale ignore] offset]|e|];
    exact H.
Qed.

Lemma tx_print_to (f : string) (l : line) (w : world) :
  tx (snd (print_to f l w)) = tx w.
Proof. unfold print_to. destruct (disk w) as [|[|] d]; reflexivity. Qed.

Ltac sends_step :=
  first
    [ apply sends_bind_silent;
      [ apply sends_silent; intros ?;
        first [ reflexivity | apply tx_print_to ] | ]
    | apply sends_bind_cons;
      [ intros ?;
        first [ apply tx_read_scale_offset; reflexivity
              | apply tx_sendMK3Command; reflexivity ] | ] ].

Lemma sends_readMultiplus (fileObj : string) :
  sends telemetry_commands (readMultiplus fileObj).
Proof.
  assert (Hwrap : forall (m : M unit),
             sends telemetry_commands m ->
             sends telemetry_commands (reraise_wrapped m)).
  { intros m Sm w. unfold reraise_wrapped.
    destruct (Sm w) as (p & q & Hpq & Htx & Hok).
    exists p, q. destruct (m w) as [[a|e|] w1]; cbn [fst snd] in *;
      repeat split; try assumption; discriminate. }
  unfold readMultiplus. apply Hwrap. unfold telemetry_commands.
  repeat (sends_step; intros ?;
          repeat match goal with
            | p : (_ * _)%type |- _ => destruct p
            end).
  apply sends_silent. intros ?. apply tx_print_to.
Qed.

(** X15: [readMultiplus] writes its six commands in the order of the
    source, scale of the AC voltage, AC frame, scale of the AC current, DC
    frame, scales of the DC voltage and of the DC current: all six when it
    returns, and the first ones of them, in that order, when it raises. *)
Theorem readMultiplus_transactions (fileObj : string) (w : world) :
  (exists k, tx (snd (readMultiplus fileObj w)) = tx w ++ firstn k telemetry_commands)
  /\ (fst (readMultiplus fileObj w) = Ok tt ->
      tx (snd (readMultiplus fileObj w)) = tx w ++ telemetry_commands).
Proof.
  destruct (sends_readMultiplus fileObj w) as (p & q & Hpq & Htx & Hok).
  split.
  - exists (List.length p). rewrite Htx, Hpq, firstn_app, Nat.sub_diag, firstn_all.
    cbn [firstn]. rewrite app_nil_r. reflexivity.
  - intros H. rewrite Htx, Hpq, (Hok tt H), app_nil_r. reflexivity.
Qed.

Lemma readMultiplus_transactions_witness :
  tx (snd (readMultiplus tmp_path (snd (open_w tmp_path (sample_world 32767 [])))))
  = [] ++ telemetry_commands.
Proof.
  apply (proj2 (readMultiplus_transactions tmp_path
                  (snd (open_w tmp_path (sample_world 32767 []))))).
  vm_compute. reflexivity.
Defined.

(** X16: bytes left in the input buffer from before do not reach
    [readMultiplus] nor a turn of the loop: each transaction starts by
    clearing the buffer. *)
Theorem readMultiplus_ignores_stale_input (fileObj : string) (w : world) (r : list Z) :
  readMultiplus fileObj (set_rx w r) = readMultiplus fileObj w
  /\ cycle (set_rx w r) = cycle w.
Proof.
  assert (H : forall f w0, readMultiplus f (set_rx w0 r) = readMultiplus f w0).
  { intros f w0. unfold readMultiplus, reraise_wrapped.
    unfold bind at 1. unfold read_scale_offset at 1.
    unfold bind at 1. unfold reset_input_buffer at 1.
    rewrite set_rx_set_rx. reflexivity. }
  split; [apply H|].
  unfold cycle, bind at 1 2. unfold open_w. cbv iota.
  change (set_buffer (set_fs (set_rx w r) (fs_put tmp_path [] (fs (set_rx w r)))) [])
    with (set_rx (set_buffer (set_fs w (fs_put tmp_path [] (fs w))) []) r).
  unfold cycle_try at 1. unfold bind at 1. rewrite H. reflexivity.
Qed.

(** ** The loop, further *)


(** The answers of the ramdisk are used up from the front. *)





(** Lines that [readMultiplus] buffers. *)












(** The temporary file after [flush] and [close]. *)





(** ** The script *)



(** ** A device that does not answer *)

(** X20: when the device does not answer the first command,
    [readMultiplus] does not time out: the empty answer [[0]] of
    [sendMK3Command] is too short for [unpack], and the turn ends with
    [struct.error], wrapped, after one command; nothing is published and
    the error is printed. *)
Theorem readMultiplus_silent_device (fileObj : string) (w : world) :
  hd [] (pending w) = [] ->
  readMultiplus fileObj w =
  (Raise (Wrapped StructError),
   mkWorld [] (tl (pending w)) (tx w ++ [[5; 255; 87; 54; 2; 0; 109]])
     (fs w) (stdout w) (disk w) (buffer w))
  /\ published (snd (cycle w)) = published w
  /\ stdout (snd (cycle w)) = stdout w ++ [Wrapped StructError].
Proof.
  intros Hsilent.
  assert (H : forall f w0, hd [] (pending w0) = [] ->
            readMultiplus f w0 =
            (Raise (Wrapped StructError),
             mkWorld [] (tl (pending w0)) (tx w0 ++ [[5; 255; 87; 54; 2; 0; 109]])
               (fs w0) (stdout w0) (disk w0) (buffer w0))).
  { intros f w0 Hs. unfold readMultiplus, reraise_wrapped.
    unfold bind at 1. unfold read_scale_offset at 1.
    unfold bind at 1. unfold reset_input_buffer at 1.
    unfold bind at 1.
    destruct (sendMK3Command_after_broadcasts "57 36 02 00"
                [5; 255; 87; 54; 2; 0; 109] (set_rx w0 []) [] []
                eq_refl eq_refl eq_refl) as [k ->].
    { cbn [rx set_rx pending app List.concat]. exact Hs. }
    cbn [read_until_answer]. unfold bind at 1. 
    rewrite readResult_nil by reflexivity.
    reflexivity. }
  split; [apply H; exact Hsilent|].
  assert (E : cycle_try tmp_path (snd (open_w tmp_path w)) =
              readMultiplus tmp_path (snd (open_w tmp_path w))).
  { unfold cycle_try. unfold bind at 1. rewrite H by exact Hsilent. reflexivity. }
  rewrite cycle_run, E, H by exact Hsilent.
  cbn [fst snd print_exn published fs stdout open_w set_fs].
  split; [|reflexivity].
  apply assoc_fs_put_other. reflexivity.
Qed.

Lemma readMultiplus_silent_device_witness :
  readMultiplus tmp_path (incoming [1; 2; 3]) =
  (Raise (Wrapped StructError),
   mkWorld [] [] [[5; 255; 87; 54; 2; 0; 109]] [] [] [] [])
  /\ published (snd (cycle (incoming [1; 2; 3]))) = published (incoming [1; 2; 3])
  /\ stdout (snd (cycle (incoming [1; 2; 3]))) = [] ++ [Wrapped StructError].
Proof.
  exact (readMultiplus_silent_device tmp_path (incoming [1; 2; 3]) eq_refl).
Defined.
